(** * Pinch-zoom controller: transform algebra, gesture resolver, touch
    state machine

    A shallow embedding of the zoom controller.  The JavaScript code is
    written once, over an interface [Arith] of the number operations it
    uses, and read at two number types:

    - [R], the real numbers: exact arithmetic, the number type of the
      design's data model (a vector is a pair of real numbers);
    - [spec_float] at precision 53 and maximal exponent 1024: IEEE 754
      binary64, which is what a JavaScript number is, for the places where
      NaN, infinities or rounding decide the behaviour. *)

From Stdlib Require Import ZArith List Bool Lia.
From Stdlib Require Import Reals Lra.
From Stdlib Require Import SpecFloat.
From Stdlib Require String.
Import ListNotations.

Set Implicit Arguments.

(** ** Numbers *)

(** The operations the source applies to numbers.  [a > b] is [lt b a] and
    [a >= b] is [le b a]; [seq] is [===] on two numbers and [truthy] is the
    conversion to a boolean done by [if (x)], [x && ..] and [!x]. *)
Class Arith (num : Type) := {
  lit : Z -> num;
  add : num -> num -> num;
  sub : num -> num -> num;
  mul : num -> num -> num;
  div : num -> num -> num;
  neg : num -> num;
  sqrt : num -> num;
  abs : num -> num;
  le : num -> num -> bool;
  lt : num -> num -> bool;
  seq : num -> num -> bool;
  truthy : num -> bool
}.

Declare Scope js_scope.
Delimit Scope js_scope with js.
Infix "+" := add : js_scope.
Infix "-" := sub : js_scope.
Infix "*" := mul : js_scope.
Infix "/" := div : js_scope.
Notation "- x" := (neg x) : js_scope.
Infix "<=?" := le : js_scope.
Infix "<?" := lt : js_scope.
Notation "a >=? b" := (le b a) (at level 70) : js_scope.
Notation "a >? b" := (lt b a) (at level 70) : js_scope.
Infix "===" := seq (at level 70) : js_scope.

(** Exact arithmetic. *)
#[export] Instance Arith_R : Arith R := {|
  lit := IZR;
  add := Rplus;
  sub := Rminus;
  mul := Rmult;
  div := Rdiv;
  neg := Ropp;
  sqrt := R_sqrt.sqrt;
  abs := Rabs;
  le := fun x y => if Rle_dec x y then true else false;
  lt := fun x y => if Rlt_dec x y then true else false;
  seq := fun x y => if Req_dec_T x y then true else false;
  truthy := fun x => if Req_dec_T x 0%R then false else true
|}.

(** IEEE 754 binary64. *)
Module B64.
Definition prec : Z := 53.
Definition emax : Z := 1024.
Definition float : Type := spec_float.
Definition nan : float := S754_nan.
Definition of_Z (z : Z) : float := binary_normalize prec emax z 0 false.
Definition is_nan (x : float) : bool :=
  match x with S754_nan => true | _ => false end.
Definition is_zero (x : float) : bool :=
  match x with S754_zero _ => true | _ => false end.
Definition is_finite (x : float) : bool :=
  match x with S754_zero _ | S754_finite _ _ _ => true | _ => false end.
(** A zero of either sign, or NaN: what [x - x] can be. *)
Definition zero_or_nan (x : float) : bool := is_zero x || is_nan x.
End B64.

#[export] Instance Arith_B64 : Arith B64.float := {|
  lit := B64.of_Z;
  add := SFadd B64.prec B64.emax;
  sub := SFsub B64.prec B64.emax;
  mul := SFmul B64.prec B64.emax;
  div := SFdiv B64.prec B64.emax;
  neg := SFopp;
  sqrt := SFsqrt B64.prec B64.emax;
  abs := SFabs;
  le := SFleb;
  lt := SFltb;
  seq := SFeqb;
  truthy := fun x => negb (B64.is_zero x || B64.is_nan x)
|}.

(** ** Transform algebra and gesture resolver *)

Section Algebra.
Context {num : Type} `{Arith num}.
Local Open Scope js_scope.

(** [Vector] is [[x, y]], [Matrix] is [[Vector, Vector]]; [v[0]] is
    [fst v] and [v[1]] is [snd v]. *)
Definition Vector : Type := num * num.
Definition Matrix : Type := Vector * Vector.

Definition scmult (l : num) (x : Vector) : Vector :=
  (l * fst x, l * snd x).

Definition vcadd (a b : Vector) : Vector :=
  (fst a + fst b, snd a + snd b).

Definition minus (a b : Vector) : Vector :=
  (fst a - fst b, snd a - snd b).

Definition dot (a b : Vector) : num :=
  fst a * fst b + snd a * snd b.

Definition wedge (a b : Vector) : num :=
  fst a * snd b - snd a * fst b.

Definition apply (A : Matrix) (x : Vector) : Vector :=
  vcadd (scmult (fst x) (fst A)) (scmult (snd x) (snd A)).

Definition mult (A B : Matrix) : Matrix :=
  (apply A (fst B), apply A (snd B)).

(** [new Transform(A, b)]: the operation [Ax + b]. *)
Record Transform : Type := mkTransform { TA : Matrix; Tb : Vector }.

(** The operation a transform stands for, as the derivation above
    [cascade] in the source uses it: [T(x) = T.A(x) + T.b]. *)
Definition run (T : Transform) (x : Vector) : Vector :=
  vcadd (apply (TA T) x) (Tb T).

Definition cascade (T U : Transform) : Transform :=
  mkTransform (mult (TA T) (TA U)) (vcadd (apply (TA T) (Tb U)) (Tb T)).

Definition rotate (c s : num) : Matrix :=
  ((c, s), (- s, c)).

Definition rotscale (a b : Vector) : Matrix :=
  let alen := dot a a in
  let sig := dot a b in
  let del := wedge a b in
  rotate (sig / alen) (del / alen).

Definition justscale (a b : Vector) : Matrix :=
  let alen := sqrt (dot a a) in
  let blen := sqrt (dot b b) in
  let scale := blen / alen in
  rotate scale (lit 0).

(** [s] and [d] are pairs of points: [s[0]] is [fst s]. *)
Definition zoom (s d : Vector * Vector) (rot : bool) : Transform :=
  let a := minus (snd s) (fst s) in
  let b := minus (snd d) (fst d) in
  let rs := if rot then rotscale a b else justscale a b in
  let rs0 := apply rs (fst s) in
  let t := minus (fst d) rs0 in
  mkTransform rs t.

Definition avgVector (u v : Vector) (progress : num) : Vector :=
  let u1 := scmult (lit 1 - progress) u in
  let v1 := scmult progress v in
  vcadd u1 v1.

Definition avgMatrix (A B : Matrix) (progress : num) : Matrix :=
  (avgVector (fst A) (fst B) progress, avgVector (snd A) (snd B) progress).

(** [Transform.avg]. *)
Definition avg (Z I : Transform) (progress : num) : Transform :=
  mkTransform (avgMatrix (TA Z) (TA I) progress)
              (avgVector (Tb Z) (Tb I) progress).

Definition identity : Transform :=
  mkTransform ((lit 1, lit 0), (lit 0, lit 1)) (lit 0, lit 0).
End Algebra.

Arguments Vector : clear implicits.
Arguments Matrix : clear implicits.
Arguments Transform : clear implicits.

(** ** Touch state machine, constraint engine and animation controller *)

Section Controller.
Context {num : Type} `{Arith num}.
Local Open Scope js_scope.

(** One entry of [evt.touches]. *)
Record Touch : Type := mkTouch { pageX : num; pageY : num }.

(** [evt.touches] may be missing ([undefined]) on the event object. *)
Record TouchEvent : Type := mkEvent { touches : option (list Touch) }.

Definition Coords : Type := Vector num * Vector num.

(** The configuration after [default_config]: [minScale] and [maxScale]
    are [null] ([None]) or a number; [boundaries] is only ever compared
    with [=== true]. *)
Record Config : Type := mkConfig {
  cfg_pan : bool;
  cfg_rotate : bool;
  cfg_minScale : option num;
  cfg_maxScale : option num;
  cfg_boundaries : bool
}.

Definition config_defaults : Config := mkConfig false true None None false.

(** What the handlers read from the page when they run. *)
Record Host : Type := mkHost {
  offsetLeft : num;
  offsetTop : num;
  clientHeight : num;
  clientWidth : num;
  innerHeight : num;
  innerWidth : num;
  hasRAF : bool
}.

(** The closure [step] of [reset]: its captured [Z], [newIdentity] and
    [startTime]. *)
Record Anim : Type := mkAnim {
  anZ : Transform num;
  anTarget : Transform num;
  anStart : option num
}.

(** The two functions the source hands to [setTimeout]. *)
Inductive Callback : Type := ClearDoubleTap | EndAnimation.

Inductive Effect : Type :=
| PreventDefault
| Repaint (T : Transform num).

(** The [Zoom] object ([me]) followed by the host state its methods act
    on: the effects so far (newest first), the callbacks given to
    [requestAnimationFrame] and to [setTimeout] that have not run yet. *)
Record Zoom : Type := mkZoom {
  mayBeDoubleTap : option nat;
  isAnimationRunning : bool;
  curTouch : nat;
  activeZoom : Transform num;
  resultantZoom : Transform num;
  srcCoords : Coords;
  destCoords : Coords;
  config : Config;
  pixelSize : num * num;
  log : list Effect;
  frames : list Anim;
  timers : list (nat * (Z * Callback));
  nextHandle : nat
}.

Definition set_mayBeDoubleTap (v : option nat) (z : Zoom) : Zoom :=
  mkZoom v (isAnimationRunning z) (curTouch z) (activeZoom z)
    (resultantZoom z) (srcCoords z) (destCoords z) (config z) (pixelSize z)
    (log z) (frames z) (timers z) (nextHandle z).

Definition set_isAnimationRunning (v : bool) (z : Zoom) : Zoom :=
  mkZoom (mayBeDoubleTap z) v (curTouch z) (activeZoom z)
    (resultantZoom z) (srcCoords z) (destCoords z) (config z) (pixelSize z)
    (log z) (frames z) (timers z) (nextHandle z).

Definition set_curTouch (v : nat) (z : Zoom) : Zoom :=
  mkZoom (mayBeDoubleTap z) (isAnimationRunning z) v (activeZoom z)
    (resultantZoom z) (srcCoords z) (destCoords z) (config z) (pixelSize z)
    (log z) (frames z) (timers z) (nextHandle z).

Definition set_activeZoom (v : Transform num) (z : Zoom) : Zoom :=
  mkZoom (mayBeDoubleTap z) (isAnimationRunning z) (curTouch z) v
    (resultantZoom z) (srcCoords z) (destCoords z) (config z) (pixelSize z)
    (log z) (frames z) (timers z) (nextHandle z).

Definition set_resultantZoom (v : Transform num) (z : Zoom) : Zoom :=
  mkZoom (mayBeDoubleTap z) (isAnimationRunning z) (curTouch z)
    (activeZoom z) v (srcCoords z) (destCoords z) (config z) (pixelSize z)
    (log z) (frames z) (timers z) (nextHandle z).

Definition set_srcCoords (v : Coords) (z : Zoom) : Zoom :=
  mkZoom (mayBeDoubleTap z) (isAnimationRunning z) (curTouch z)
    (activeZoom z) (resultantZoom z) v (destCoords z) (config z)
    (pixelSize z) (log z) (frames z) (timers z) (nextHandle z).

Definition set_destCoords (v : Coords) (z : Zoom) : Zoom :=
  mkZoom (mayBeDoubleTap z) (isAnimationRunning z) (curTouch z)
    (activeZoom z) (resultantZoom z) (srcCoords z) v (config z)
    (pixelSize z) (log z) (frames z) (timers z) (nextHandle z).

Definition emit (e : Effect) (z : Zoom) : Zoom :=
  mkZoom (mayBeDoubleTap z) (isAnimationRunning z) (curTouch z)
    (activeZoom z) (resultantZoom z) (srcCoords z) (destCoords z)
    (config z) (pixelSize z) (e :: log z) (frames z) (timers z)
    (nextHandle z).

Definition set_frames (v : list Anim) (z : Zoom) : Zoom :=
  mkZoom (mayBeDoubleTap z) (isAnimationRunning z) (curTouch z)
    (activeZoom z) (resultantZoom z) (srcCoords z) (destCoords z)
    (config z) (pixelSize z) (log z) v (timers z) (nextHandle z).

Definition set_timers (v : list (nat * (Z * Callback))) (n : nat)
    (z : Zoom) : Zoom :=
  mkZoom (mayBeDoubleTap z) (isAnimationRunning z) (curTouch z)
    (activeZoom z) (resultantZoom z) (srcCoords z) (destCoords z)
    (config z) (pixelSize z) (log z) (frames z) v n.

(** *** Host services *)

(** [wnd.requestAnimationFrame(step)]. *)
Definition requestAnimationFrame (a : Anim) (z : Zoom) : Zoom :=
  set_frames (frames z ++ [a]) z.

(** [setTimeout(cb, ms)]: the handle and the state with the timer armed. *)
Definition setTimeout (cb : Callback) (ms : Z) (z : Zoom) : nat * Zoom :=
  (nextHandle z,
   set_timers ((nextHandle z, (ms, cb)) :: timers z) (S (nextHandle z)) z).

Definition clearTimeout (hd : nat) (z : Zoom) : Zoom :=
  set_timers (filter (fun t => negb (Nat.eqb (fst t) hd)) (timers z))
             (nextHandle z) z.

(** [a || b] on two numbers. *)
Definition js_or (a b : num) : num := if truthy a then a else b.

(** Truthiness of a value that is [undefined]/[null] or a number. *)
Definition opt_truthy (o : option num) : bool :=
  match o with Some x => truthy x | None => false end.

(** [windowSize] of [reset] and [checkBoundaries]: (height, width). *)
Definition windowSize (h : Host) : num * num :=
  (js_or (clientHeight h) (innerHeight h),
   js_or (clientWidth h) (innerWidth h)).

(** *** Coordinate capture *)

(** [None] is the TypeError of reading [pageX] of [undefined]. *)
Definition getCoordsDouble (h : Host) (t : list Touch) : option Coords :=
  let oX := offsetLeft h in
  let oY := offsetTop h in
  match t with
  | t0 :: t1 :: _ =>
      Some ((pageX t0 - oX, pageY t0 - oY), (pageX t1 - oX, pageY t1 - oY))
  | _ => None
  end.

Definition getCoordsSingle (h : Host) (t : list Touch) : option Coords :=
  let oX := offsetLeft h in
  let oY := offsetTop h in
  match t with
  | t0 :: _ =>
      let x := pageX t0 - oX in
      let y := pageY t0 - oY in
      Some ((x, y), (x + lit 1, y + lit 1))
  | [] => None
  end.

Definition getCoords (h : Host) (t : list Touch) : option Coords :=
  if Nat.ltb 1 (length t) then getCoordsDouble h t else getCoordsSingle h t.

Definition setSrcAndDest (h : Host) (t : list Touch) (z : Zoom)
    : option Zoom :=
  match getCoords h t with
  | Some c =>
      let z := set_srcCoords c z in
      Some (set_destCoords (srcCoords z) z)
  | None => None
  end.

Definition setDest (h : Host) (t : list Touch) (z : Zoom) : option Zoom :=
  match getCoords h t with
  | Some c => Some (set_destCoords c z)
  | None => None
  end.

(** *** Methods of [Zoom.prototype] *)

Definition repaint (z : Zoom) : Zoom := emit (Repaint (resultantZoom z)) z.

Definition setZoom (newZoom : Transform num) (z : Zoom) : Zoom :=
  repaint (set_resultantZoom newZoom z).

Definition finalize (z : Zoom) : Zoom := set_activeZoom (resultantZoom z) z.

(** The target of the double-tap zoom-in, [newIdentity] inside the
    [maxScale] branch of [reset]. *)
Definition zoomedIdentity (h : Host) (max : num) (z : Zoom)
    : Transform num :=
  let '(wh, ww) := windowSize h in
  let '(pw, ph) := pixelSize z in
  let middleX := ((pw * max) - ww) / lit 2 in
  let middleX := middleX + offsetLeft h in
  let middleX := middleX * lit (-1) in
  let middleY := (wh / lit 2) - (ph / lit 2) in
  let middleY := middleY + (((ph * max) - wh) / lit 2) in
  let middleY := middleY * lit (-1) in
  mkTransform ((max, lit 0), (lit 0, max)) (middleX, middleY).

Definition reset (h : Host) (useOriginalIdentity : bool) (z : Zoom)
    : Zoom :=
  let newIdentity := identity in
  if hasRAF h then
    let z := set_isAnimationRunning true z in
    let Z := activeZoom z in
    let newIdentity :=
      match cfg_maxScale (config z) with
      | Some max =>
          if truthy max then
            if negb useOriginalIdentity
               && (fst (fst (TA Z)) === lit 1)
               && (snd (snd (TA Z)) === lit 1)
            then zoomedIdentity h max z
            else newIdentity
          else newIdentity
      | None => newIdentity
      end in
    requestAnimationFrame (mkAnim Z newIdentity None) z
  else setZoom newIdentity z.

(** One run of the frame callback [step(time)] of [reset]. *)
Definition step (time : num) (a : Anim) (z : Zoom) : Zoom :=
  let startTime :=
    match anStart a with
    | Some t => if truthy t then t else time
    | None => time
    end in
  let progress := (time - startTime) / lit 100 in
  if progress >=? lit 1 then
    let z := setZoom (anTarget a) z in
    snd (setTimeout EndAnimation 100 z)
  else
    let z := setZoom (avg (anZ a) (anTarget a) progress) z in
    requestAnimationFrame (mkAnim (anZ a) (anTarget a) (Some startTime)) z.

Definition checkPan (h : Host) (rz : Transform num) (z : Zoom)
    : bool * Zoom :=
  let A := TA rz in
  let '(proceed, z) :=
    match cfg_minScale (config z) with
    | Some minScale =>
        if truthy minScale then
          if (fst (fst A) <=? minScale) && (snd (snd A) <=? minScale)
          then (false, reset h true (finalize z))
          else (true, z)
        else (true, z)
    | None => (true, z)
    end in
  let proceed :=
    match cfg_maxScale (config z) with
    | Some maxScale =>
        if truthy maxScale
           && ((fst (fst A) >? maxScale) && (snd (snd A) >? maxScale))
        then false
        else proceed
    | None => proceed
    end in
  (proceed, z).

(** [x >= 0] where [x] may still be [undefined]: the comparison is then
    false. *)
Definition opt_ge0 (o : option num) : bool :=
  match o with Some x => x >=? lit 0 | None => false end.

(** [checkBoundaries] assigns to the entries of [resultantZoom.b] in
    place and returns its argument; its only caller passes the transform
    [cascade] has just built, so the assignment is to a fresh array and
    the function is read here as returning the clamped transform.
    [xLeft], [xRight], [yTop], [yBottom] start [undefined] ([None]). *)
Definition checkBoundaries (h : Host) (rz : Transform num) (z : Zoom)
    : Transform num :=
  let A := TA rz in
  let b := Tb rz in
  if cfg_boundaries (config z) then
    let width := fst (pixelSize z) * fst (fst A) in
    let height := snd (pixelSize z) * snd (snd A) in
    let '(wh, ww) := windowSize h in
    if wh >? ww then
      let b0 := fst b in
      let b0 := if b0 >=? lit 0 then lit 0 else b0 in
      let b0 := if abs b0 >=? (width - ww)
                then (width - ww) * lit (-1) else b0 in
      let yTopFormula := ((wh - snd (pixelSize z)) / lit 2) * lit (-1) in
      let yTop := if snd b <=? yTopFormula then Some yTopFormula else None in
      let yBottomFormula :=
        ((wh - snd (pixelSize z)) / lit 2) - (height - snd (pixelSize z)) in
      let yBottom :=
        if snd b >? yBottomFormula then Some yBottomFormula else None in
      let b1 :=
        if height <? wh then
          if opt_truthy yTop && negb (opt_truthy yBottom)
          then match yTop with Some y => y | None => snd b end
          else if opt_truthy yBottom && negb (opt_truthy yTop)
          then match yBottom with Some y => y | None => snd b end
          else snd b
        else
          if opt_truthy yTop && negb (opt_truthy yBottom)
          then yBottomFormula
          else if opt_truthy yBottom && negb (opt_truthy yTop)
          then yTopFormula
          else snd b in
      mkTransform A (b0, b1)
    else
      let xRightFormula := offsetLeft h * lit (-1) in
      let xRight :=
        if fst b >=? xRightFormula then Some xRightFormula else None in
      let xLeftFormula :=
        ((ww - fst (pixelSize z)) / lit 2) - (width - fst (pixelSize z)) in
      let xLeft :=
        if fst b <=? xLeftFormula then Some xLeftFormula else None in
      let widerImage := width >? ww in
      let b0 :=
        if opt_truthy xRight && negb (opt_truthy xLeft)
        then (if widerImage
              then match xRight with Some x => x | None => fst b end
              else xLeftFormula)
        else if opt_truthy xLeft && negb (opt_truthy xRight)
        then (if widerImage
              then match xLeft with Some x => x | None => fst b end
              else xRightFormula)
        else fst b in
      let '(yTop, yBottom) :=
        if snd b >=? lit 0 then (Some (lit 0), None)
        else if abs (snd b) >=? (height - wh)
        then (None, Some ((height - wh) * lit (-1)))
        else (None, None) in
      let b1 :=
        if opt_ge0 yTop && negb (opt_truthy yBottom)
        then match yTop with Some y => y | None => snd b end
        else if opt_truthy yBottom && negb (opt_truthy yTop)
        then match yBottom with Some y => y | None => snd b end
        else snd b in
      mkTransform A (b0, b1)
  else rz.

(** The transform [previewZoom] proposes: the gesture's delta composed
    with the active transform. *)
Definition proposedZoom (z : Zoom) : Transform num :=
  let additionalZoom :=
    zoom (srcCoords z) (destCoords z) (cfg_rotate (config z)) in
  cascade additionalZoom (activeZoom z).

Definition previewZoom (h : Host) (z : Zoom) : Zoom :=
  let resultantZoom := proposedZoom z in
  let '(proceed, z) := checkPan h resultantZoom z in
  if negb proceed then z
  else
    let resultantZoom := checkBoundaries h resultantZoom z in
    repaint (set_resultantZoom resultantZoom z).

(** *** Event handlers *)

(** [None] is an exception leaving the listener. *)
Definition handleTouchEvent (cb : list Touch -> Zoom -> option Zoom)
    (evt : TouchEvent) (z : Zoom) : option Zoom :=
  let z := emit PreventDefault z in
  if isAnimationRunning z then Some z
  else
    match touches evt with
    | None => Some z
    | Some t => cb t z
    end.

Definition handleZoom (h : Host) : TouchEvent -> Zoom -> option Zoom :=
  handleTouchEvent (fun t z =>
    let numOfFingers := length t in
    if negb (Nat.eqb numOfFingers (curTouch z)) then
      let z := set_curTouch numOfFingers z in
      let z := finalize z in
      if negb (Nat.eqb numOfFingers 0) then setSrcAndDest h t z
      else Some z
    else if negb (Nat.eqb numOfFingers 0) then
      match setDest h t z with
      | Some z => Some (previewZoom h z)
      | None => None
      end
    else Some z).

Definition handleTouchStart (h : Host) : TouchEvent -> Zoom -> option Zoom :=
  handleTouchEvent (fun t z =>
    if Nat.eqb (length t) 1 then
      match mayBeDoubleTap z with
      | Some hd =>
          let z := clearTimeout hd z in
          let z := reset h false z in
          Some (set_mayBeDoubleTap None z)
      | None =>
          let '(hd, z) := setTimeout ClearDoubleTap 300 z in
          Some (set_mayBeDoubleTap (Some hd) z)
      end
    else Some z).

(** The body of a [setTimeout] callback. *)
Definition runCallback (cb : Callback) (z : Zoom) : Zoom :=
  match cb with
  | ClearDoubleTap => set_mayBeDoubleTap None z
  | EndAnimation => set_isAnimationRunning false z
  end.

(** What the host can deliver: the three touch events the constructor
    listens to ([touchstart] runs [handleTouchStart], then [handleZoom]),
    an animation frame, and the expiry of an armed timer. *)
Inductive Event : Type :=
| TouchStartEv (e : TouchEvent)
| TouchMoveEv (e : TouchEvent)
| TouchEndEv (e : TouchEvent)
| FrameEv (time : num)
| TimeoutEv (hd : nat).

Definition deliver (h : Host) (ev : Event) (z : Zoom) : option Zoom :=
  match ev with
  | TouchStartEv e =>
      match handleTouchStart h e z with
      | Some z => handleZoom h e z
      | None => None
      end
  | TouchMoveEv e | TouchEndEv e => handleZoom h e z
  | FrameEv time =>
      Some (fold_left (fun z a => step time a z) (frames z)
                      (set_frames [] z))
  | TimeoutEv hd =>
      match find (fun t => Nat.eqb (fst t) hd) (timers z) with
      | Some (_, (_, cb)) => Some (runCallback cb (clearTimeout hd z))
      | None => Some z
      end
  end.

Fixpoint deliverAll (h : Host) (evs : list Event) (z : Zoom)
    : option Zoom :=
  match evs with
  | [] => Some z
  | ev :: evs =>
      match deliver h ev z with
      | Some z => deliverAll h evs z
      | None => None
      end
  end.

(** The object the constructor leaves.  The placeholders [[0, 0]] of
    [srcCoords] and [destCoords] are replaced by [setSrcAndDest] before
    any handler reads them; they are read here as two points at the
    origin. *)
Definition newZoom (cfg : Config) (size : num * num) : Zoom :=
  mkZoom None false 0 identity identity
    ((lit 0, lit 0), (lit 0, lit 0)) ((lit 0, lit 0), (lit 0, lit 0))
    cfg size [] [] [] 0.
End Controller.

Arguments Touch : clear implicits.
Arguments TouchEvent : clear implicits.
Arguments Coords : clear implicits.
Arguments Config : clear implicits.
Arguments Host : clear implicits.
Arguments Anim : clear implicits.
Arguments Effect : clear implicits.
Arguments Zoom num : clear implicits.
Arguments Event : clear implicits.

(** ** The earlier dispatcher (zoom-1.0.7-beta.js)

    Its three listeners pass the number of contacts to a [switch] that
    reaches a handler for one or two contacts only.  The handlers
    themselves ([ts1], [ts2], [tm1], ...) are taken as given. *)
Module Beta.
Section Dispatch.
Variable St : Type.
Variable Touch : Type.
(** [ts1], [tm1] or [te1], and [ts2], [tm2] or [te2]. *)
Variables on1 on2 : St -> bool * St.

Definition handleTouchEvent (t : option (list Touch))
    (cb : nat -> St -> bool * St) (st : St) : bool * St :=
  match t with
  | None => (false, st)
  | Some t => let ts := length t in cb ts st
  end.

(** The listener's callback: [switch (ts)]. *)
Definition byCount (ts : nat) (st : St) : bool * St :=
  match ts with
  | 1 => on1 st
  | 2 => on2 st
  | _ => (false, st)
  end.

Definition listener (t : option (list Touch)) (st : St) : bool * St :=
  handleTouchEvent t byCount st.
End Dispatch.
End Beta.

(** ** The tests of the constraint engine and the statements under test *)

Section Conditions.
Context {num : Type} `{Arith num}.

(** The test of the [minScale] branch of [checkPan]. *)
Definition belowMin (cfg : Config num) (rz : Transform num) : bool :=
  match cfg_minScale cfg with
  | Some minScale =>
      truthy minScale
      && (le (fst (fst (TA rz))) minScale && le (snd (snd (TA rz))) minScale)
  | None => false
  end.

(** The test of the [maxScale] branch of [checkPan]. *)
Definition aboveMax (cfg : Config num) (rz : Transform num) : bool :=
  match cfg_maxScale cfg with
  | Some maxScale =>
      truthy maxScale
      && (lt maxScale (fst (fst (TA rz))) && lt maxScale (snd (snd (TA rz))))
  | None => false
  end.

(** The gesture session held by the controller. *)
Definition session (z : Zoom num)
    : Coords num * Coords num * Transform num * Transform num * nat
      * option nat * bool :=
  (srcCoords z, destCoords z, activeZoom z, resultantZoom z, curTouch z,
   mayBeDoubleTap z, isAnimationRunning z).

(** The repaints among the effects. *)
Definition repaints (z : Zoom num) : list (Transform num) :=
  flat_map (fun e => match e with Repaint T => [T] | PreventDefault => [] end)
           (log z).
(** The events that come from the touch surface. *)
Definition isTouch (ev : Event num) : bool :=
  match ev with
  | TouchStartEv _ | TouchMoveEv _ | TouchEndEv _ => true
  | FrameEv _ | TimeoutEv _ => false
  end.
End Conditions.

Section Claims.
Context {num : Type} `{Arith num}.


(** C9 as stated: an event with more than two contacts leaves the
    session as it was. *)
Definition extra_contacts_ignored (h : Host num) (z : Zoom num)
    (t : list (Touch num)) : Prop :=
  2 < length t ->
  exists z', handleZoom h (mkEvent (Some t)) z = Some z'
             /\ session z' = session z.

(** C10 as stated, its last part: when the contacts have not moved,
    the transform displayed by [previewZoom] acts on every point as the
    active transform does. *)
Definition unmoved_previews_active (h : Host num) (z : Zoom num) : Prop :=
  destCoords z = srcCoords z ->
  fst (srcCoords z) <> snd (srcCoords z) ->
  cfg_rotate (config z) = true ->
  forall x, run (resultantZoom (previewZoom h z)) x = run (activeZoom z) x.

(** C1 as stated, its last part: the resolved transform sends each source
    point to its destination point. *)
Definition resolver_hits (s d : Coords num) : Prop :=
  run (zoom s d true) (fst s) = fst d
  /\ run (zoom s d true) (snd s) = snd d.

(** C2 as stated, its two parts. *)
Definition cascade_associates (T U V : Transform num) : Prop :=
  cascade (cascade T U) V = cascade T (cascade U V).

Definition identity_is_unit (T : Transform num) : Prop :=
  cascade identity T = T /\ cascade T identity = T.


(** C7 as stated: the diagonal entries are the quotient [k] of the
    lengths, the off-diagonal entries are zero. *)
Definition scale_only_by (s d : Coords num) (k : num) : Prop :=
  let A := TA (zoom s d false) in
  fst (fst A) = k /\ snd (snd A) = k.

(** C8 as stated, its last part. *)
Definition avg_reaches_ends (Z I : Transform num) : Prop :=
  avg Z I (lit 0) = Z /\ avg Z I (lit 1) = I.
End Claims.

(** Every entry of a transform is a finite number: neither NaN nor an
    infinity. *)
Definition all_finite (T : Transform B64.float) : bool :=
  B64.is_finite (fst (fst (TA T))) && B64.is_finite (snd (fst (TA T)))
  && B64.is_finite (fst (snd (TA T))) && B64.is_finite (snd (snd (TA T)))
  && B64.is_finite (fst (Tb T)) && B64.is_finite (snd (Tb T)).

(** ** Numbers of binary64 *)

Module Finite64.
Import B64.

(** A binary64 number: a zero, or a finite value in canonical form
    (neither NaN nor an infinity). *)
Definition number (x : float) : bool :=
  match x with
  | S754_zero _ => true
  | S754_finite _ m e => bounded prec emax m e
  | _ => false
  end.

(** The same number: the same value, or two zeros whatever their
    signs. *)
Definition same (x y : float) : Prop :=
  x = y \/ (is_zero x = true /\ is_zero y = true).

Definition sameV (u v : Vector float) : Prop :=
  same (fst u) (fst v) /\ same (snd u) (snd v).

Definition sameT (T U : Transform float) : Prop :=
  sameV (fst (TA T)) (fst (TA U))
  /\ sameV (snd (TA T)) (snd (TA U))
  /\ sameV (Tb T) (Tb U).

Definition numbersV (v : Vector float) : bool :=
  number (fst v) && number (snd v).

(** Every entry of the transform is a number. *)
Definition numbers (T : Transform float) : bool :=
  numbersV (fst (TA T)) && numbersV (snd (TA T)) && numbersV (Tb T).
End Finite64.

(** ** Runs on binary64 *)

Module Run64.
Definition n (k : Z) : B64.float := lit k.

Definition at_ (x y : Z) : Touch B64.float := mkTouch (n x) (n y).

Definition touching (l : list (Touch B64.float)) : TouchEvent B64.float :=
  mkEvent (Some l).

(** An element 100 by 100 at the page origin, in a portrait viewport 400
    wide and 800 high, with [requestAnimationFrame]. *)
Definition page : Host B64.float :=
  mkHost (n 0) (n 0) (n 800) (n 400) (n 800) (n 400) true.

Definition size : B64.float * B64.float := (n 100, n 100).

(** The controller after the events [evs], from its construction. *)
Definition after (cfg : Config B64.float) (evs : list (Event B64.float))
    : Zoom B64.float :=
  match deliverAll page evs (newZoom cfg size) with
  | Some z => z
  | None => newZoom cfg size
  end.

(** [{maxScale: 2}] and [{minScale: 0.5}]. *)
Definition capped : Config B64.float :=
  mkConfig false true None (Some (n 2)) false.
Definition floored : Config B64.float :=
  mkConfig false true (Some (div (n 1) (n 2))) None false.

(** Two fingers set down at (0,0) and (10,0). *)
Definition two_down : Event B64.float :=
  TouchStartEv (touching [at_ 0 0; at_ 10 0]).

(** They move to (5,5) and (35,5): spread threefold, panned by (5,5). *)
Definition spread_and_pan : list (Touch B64.float) := [at_ 5 5; at_ 35 5].

(** They move to (0,0) and (5,0): pinched to one half. *)
Definition pinch_in : list (Touch B64.float) := [at_ 0 0; at_ 5 0].

(** The state [previewZoom] runs in when the fingers of [two_down] have
    moved to [t]: the destination has just been captured. *)
Definition moved_to (cfg : Config B64.float) (t : list (Touch B64.float))
    : Zoom B64.float :=
  match setDest page t (after cfg [two_down]) with
  | Some z => z
  | None => after cfg [two_down]
  end.

(** A double tap: the second tap starts the reset animation. *)
Definition double_tap : list (Event B64.float) :=
  [TouchStartEv (touching [at_ 0 0]); TouchEndEv (touching []);
   TouchStartEv (touching [at_ 0 0])].
End Run64.

(** ** Runs in exact arithmetic *)

Module RunExact.
Local Open Scope R_scope.

(** An element 100 by 100 at the page origin, in a portrait viewport 400
    wide and 800 high. *)
Definition page : Host R := mkHost 0 0 800 400 800 400 true.

(** [{boundaries: true}]. *)
Definition bounded : Config R := mkConfig false true None None true.

Definition finger : list (Touch R) := [mkTouch 0 0].

(** One finger set down at the origin, and a [touchmove] that finds it
    where it was: the state [previewZoom] runs in. *)
Definition resting : Zoom R :=
  match deliverAll page [TouchStartEv (mkEvent (Some finger))]
          (newZoom bounded (100, 100)) with
  | Some z =>
      match setDest page finger z with Some z' => z' | None => z end
  | None => newZoom bounded (100, 100)
  end.

(** The same with the default configuration. *)
Definition resting_free : Zoom R :=
  match deliverAll page [TouchStartEv (mkEvent (Some finger))]
          (newZoom config_defaults (100, 100)) with
  | Some z =>
      match setDest page finger z with Some z' => z' | None => z end
  | None => newZoom config_defaults (100, 100)
  end.
End RunExact.

(** ** Further notions the properties are stated with *)

Section Shapes.
Context {num : Type} `{Arith num}.
Local Open Scope js_scope.

(** A matrix of the shape [rotate c s] builds: equal diagonal entries and
    opposite off-diagonal entries. *)
Definition similar (A : Matrix num) : Prop :=
  fst (fst A) = snd (snd A) /\ fst (snd A) = - snd (fst A).

(** The transform with the identity matrix and the translation [v]. *)
Definition translation (v : Vector num) : Transform num :=
  mkTransform ((lit 1, lit 0), (lit 0, lit 1)) v.


End Shapes.

Section Tally.
Context {num : Type} `{Arith num}.

(** The timers that end an animation's grace period. *)
Definition isEnd (t : nat * (Z * Callback)) : bool :=
  match snd (snd t) with
  | EndAnimation => true
  | ClearDoubleTap => false
  end.

(** What is still to run of reset animations: the frame callbacks and the
    grace timers. *)
Definition pendingAnimation (z : Zoom num) : nat :=
  length (frames z) + length (filter isEnd (timers z)).

(** Timer handles are distinct and below the next one to be given out. *)
Definition freshHandles (z : Zoom num) : Prop :=
  NoDup (map fst (timers z))
  /\ Forall (fun t => fst t < nextHandle z) (timers z).

(** [isAnimationRunning] is raised exactly while one piece of one
    animation is still to run. *)
Definition animationAccounted (z : Zoom num) : Prop :=
  pendingAnimation z = (if isAnimationRunning z then 1 else 0)
  /\ freshHandles z.
End Tally.

(** The transform none of whose entries is a number. *)
Definition nanT : Transform B64.float :=
  mkTransform ((B64.nan, B64.nan), (B64.nan, B64.nan)) (B64.nan, B64.nan).

(** ** Configuration objects *)

(** The values a configuration key holds here: [undefined], [null], a
    boolean or a number.  An object is read through its keys, a key it
    does not have reading as [undefined]. *)
Inductive JSValue (num : Type) : Type :=
| JUndefined
| JNull
| JBool (b : bool)
| JNum (x : num).

Arguments JUndefined {num}.
Arguments JNull {num}.
Arguments JBool {num} b.
Arguments JNum {num} x.

Section Defaults.
Context {num : Type}.

Definition Obj : Type := String.string -> JSValue num.

(** [{}]. *)
Definition emptyObj : Obj := fun _ => JUndefined.

(** [o[k] = v]. *)
Definition put (o : Obj) (k : String.string) (v : JSValue num) : Obj :=
  fun k' => if String.eqb k' k then v else o k'.

(** [defaults]: [param === undefined ? val : param]. *)
Definition defaults (param val : JSValue num) : JSValue num :=
  match param with
  | JUndefined => val
  | _ => param
  end.

(** The [cfg] argument of [default_config] and of the constructor:
    [undefined] (also when left out), [null], or an object. *)
Inductive Cfg : Type :=
| CfgUndefined
| CfgNull
| CfgObj (o : Obj).

(** [defaults(cfg, {})]. *)
Definition defaultsCfg (param : Cfg) (val : Obj) : Cfg :=
  match param with
  | CfgUndefined => CfgObj val
  | _ => param
  end.

(** [default_config(cfg, cfg_def)]; [cfg_def] lists the keys of the
    defaults in the order [for (var k in cfg_def)] visits them.  The
    source writes into the object it was given and returns it; the value
    returned is what is modelled.  Reading [new_cfg[k]] when [new_cfg] is
    [null] throws a TypeError: the result is then [None]. *)
Definition default_config (cfg : Cfg)
    (cfg_def : list (String.string * JSValue num)) : option Cfg :=
  let new_cfg := defaultsCfg cfg emptyObj in
  fold_left
    (fun new_cfg kv =>
       match new_cfg with
       | Some (CfgObj o) =>
           Some (CfgObj (put o (fst kv) (defaults (o (fst kv)) (snd kv))))
       | _ => None
       end)
    cfg_def (Some new_cfg).


End Defaults.

Arguments Obj : clear implicits.
Arguments Cfg : clear implicits.

(** The same two functions in zoom-1.0.7-beta.js, where the test is
    [param == undefined], true of [undefined] and of [null]. *)
Module BetaConfig.
Section Defaults.
Context {num : Type}.

Definition defaults (param val : JSValue num) : JSValue num :=
  match param with
  | JUndefined | JNull => val
  | _ => param
  end.

Definition defaultsCfg (param : Cfg num) (val : Obj num) : Cfg num :=
  match param with
  | CfgUndefined | CfgNull => CfgObj val
  | _ => param
  end.

Definition default_config (cfg : Cfg num)
    (cfg_def : list (String.string * JSValue num)) : option (Cfg num) :=
  let new_cfg := defaultsCfg cfg emptyObj in
  fold_left
    (fun new_cfg kv =>
       match new_cfg with
       | Some (CfgObj o) =>
           Some (CfgObj (put o (fst kv) (defaults (o (fst kv)) (snd kv))))
       | _ => None
       end)
    cfg_def (Some new_cfg).
End Defaults.
End BetaConfig.

Section ZoomDefaults.
Context {num : Type}.
Import String.StringSyntax.
Local Open Scope string_scope.


End ZoomDefaults.

(** ** Further runs *)

Module Run64More.
Import Run64.

(** Two contacts reported at the same point (3,4), then found at (0,0)
    and (1,1): the state [previewZoom] runs in. *)
Definition from_one_point : Zoom B64.float :=
  match setDest page [at_ 0 0; at_ 1 1]
          (after capped [TouchStartEv (touching [at_ 3 4; at_ 3 4])]) with
  | Some z => z
  | None => newZoom capped size
  end.

(** The same gesture previewed and ended by lifting both fingers, then
    one finger set down at (0,0) and found at (7,0). *)
Definition after_degenerate_pinch : Zoom B64.float :=
  match setDest page [at_ 7 0]
          (after capped [TouchStartEv (touching [at_ 3 4; at_ 3 4]);
                         TouchMoveEv (touching [at_ 0 0; at_ 1 1]);
                         TouchEndEv (touching []);
                         TouchStartEv (touching [at_ 0 0])]) with
  | Some z => z
  | None => newZoom capped size
  end.



(** [k / 10]. *)
Definition tenths (k : Z) : B64.float := div (n k) (n 10).

(** The translation by [x] along the first axis. *)
Definition shift (x : B64.float) : Transform B64.float :=
  mkTransform ((n 1, n 0), (n 0, n 1)) (x, n 0).

(** The uniform scale [Infinity], [1 / 0]. *)
Definition infinite_scale : Transform B64.float :=
  mkTransform ((div (n 1) (n 0), n 0), (n 0, div (n 1) (n 0))) (n 0, n 0).

(** The uniform scale 2 with the translation (5, 5). *)
Definition doubled : Transform B64.float :=
  mkTransform ((n 2, n 0), (n 0, n 2)) (n 5, n 5).

(** The page of [page] without [requestAnimationFrame]. *)
Definition page_without_frames : Host B64.float :=
  mkHost (n 0) (n 0) (n 800) (n 400) (n 800) (n 400) false.

(** [{minScale: 0.2, maxScale: 0.5}]. *)
Definition narrow : Config B64.float :=
  mkConfig false true (Some (tenths 2)) (Some (tenths 5)) false.

(** [{minScale: 3, maxScale: 2}]. *)
Definition crossed : Config B64.float :=
  mkConfig false true (Some (n 3)) (Some (n 2)) false.

(** On [page_without_frames] with [narrow]: the fingers of [two_down]
    have pinched to (0,0),(4,0), which is displayed at the scale 0.4, and
    are now found at (0,0),(1,0): the state [previewZoom] runs in. *)
Definition pinched_further : Zoom B64.float :=
  match deliverAll page_without_frames
          [two_down; TouchMoveEv (touching [at_ 0 0; at_ 4 0])]
          (newZoom narrow size) with
  | Some z =>
      match setDest page_without_frames [at_ 0 0; at_ 1 0] z with
      | Some z' => z'
      | None => z
      end
  | None => newZoom narrow size
  end.
End Run64More.

Module RunExactMore.
Local Open Scope R_scope.

(** A landscape viewport 800 wide and 400 high, the element 100 by 100
    at [offsetLeft = 50]. *)
Definition wide : Host R := mkHost 50 0 400 800 400 800 true.

(** [{maxScale: 2}] on a new controller. *)
Definition capped : Zoom R :=
  newZoom (mkConfig false true None (Some 2) false) (100, 100).

(** A new controller on which [reset(true)] has just been called. *)
Definition resetting : Zoom R :=
  reset RunExact.page true (newZoom config_defaults (100, 100)).
End RunExactMore.

(** ** The touch state machine of zoom-1.0.7-beta.js

    The earlier controller keeps a numeric state [curState] (0 default,
    1 one finger, 2 two fingers, 3 double click, 10 single tap, 100 tap
    released).  Its handlers take the touch list as parameter [touches];
    [None] is [undefined], which is what they receive when called without
    an argument.  A handler returns the state it leaves and whether it
    returned or threw; what it assigned before throwing stays assigned. *)
Module BetaMachine.
Section Machine.
Context {num : Type} `{Arith num}.
Local Open Scope js_scope.

Inductive Outcome : Type := Returned (b : bool) | Threw.

Inductive Note : Type :=
| Painted (T : Transform num)
| ConsoleError.

(** The closure [step] of [reset(cb)]: its [Z] and [startTime]; [cb] is
    [to2] at the only call. *)
Record Anim : Type := mkAnim { anZ : Transform num; anStart : option num }.

Record Zoom : Type := mkZoom {
  curState : nat;
  activeZoom : Transform num;
  resultantZoom : Transform num;
  srcCoords : Coords num;
  destCoords : Coords num;
  notes : list Note;
  frames : list Anim;
  timers : nat
}.

Definition set_curState (v : nat) (z : Zoom) : Zoom :=
  mkZoom v (activeZoom z) (resultantZoom z) (srcCoords z) (destCoords z)
    (notes z) (frames z) (timers z).

Definition set_activeZoom (v : Transform num) (z : Zoom) : Zoom :=
  mkZoom (curState z) v (resultantZoom z) (srcCoords z) (destCoords z)
    (notes z) (frames z) (timers z).

Definition set_resultantZoom (v : Transform num) (z : Zoom) : Zoom :=
  mkZoom (curState z) (activeZoom z) v (srcCoords z) (destCoords z)
    (notes z) (frames z) (timers z).

Definition set_srcCoords (v : Coords num) (z : Zoom) : Zoom :=
  mkZoom (curState z) (activeZoom z) (resultantZoom z) v (destCoords z)
    (notes z) (frames z) (timers z).

Definition set_destCoords (v : Coords num) (z : Zoom) : Zoom :=
  mkZoom (curState z) (activeZoom z) (resultantZoom z) (srcCoords z) v
    (notes z) (frames z) (timers z).

Definition note (e : Note) (z : Zoom) : Zoom :=
  mkZoom (curState z) (activeZoom z) (resultantZoom z) (srcCoords z)
    (destCoords z) (e :: notes z) (frames z) (timers z).

Definition set_frames (v : list Anim) (z : Zoom) : Zoom :=
  mkZoom (curState z) (activeZoom z) (resultantZoom z) (srcCoords z)
    (destCoords z) (notes z) v (timers z).

Definition set_timers (v : nat) (z : Zoom) : Zoom :=
  mkZoom (curState z) (activeZoom z) (resultantZoom z) (srcCoords z)
    (destCoords z) (notes z) (frames z) v.

(** [getCoords(touches)]: reading [length] of [undefined] throws. *)
Definition getCoords (h : Host num) (touches : option (list (Touch num)))
    : option (Coords num) :=
  match touches with
  | None => None
  | Some t => getCoords h t
  end.

Definition setSrcAndDest (h : Host num)
    (touches : option (list (Touch num))) (z : Zoom) : option Zoom :=
  match getCoords h touches with
  | Some c =>
      let z := set_srcCoords c z in
      Some (set_destCoords (srcCoords z) z)
  | None => None
  end.

Definition setDest (h : Host num) (touches : option (list (Touch num)))
    (z : Zoom) : option Zoom :=
  match getCoords h touches with
  | Some c => Some (set_destCoords c z)
  | None => None
  end.

Definition repaint (z : Zoom) : Zoom := note (Painted (resultantZoom z)) z.

Definition setZoom (newZoom : Transform num) (z : Zoom) : Zoom :=
  repaint (set_resultantZoom newZoom z).

Definition finalize (z : Zoom) : Zoom := set_activeZoom (resultantZoom z) z.

(** [previewZoom] reads [me.srcCoords], and no [me] is declared where the
    method is defined: the read throws. *)
Definition previewZoom (z : Zoom) : option Zoom := None.

(** The [default] branches of the touch handlers evaluate
    [touches.length] for the message. *)
Definition complain (touches : option (list (Touch num))) (z : Zoom)
    : Zoom * Outcome :=
  match touches with
  | None => (z, Threw)
  | Some _ => (note ConsoleError z, Returned true)
  end.

(** Ends a branch whose last statements may throw. *)
Definition finish (r : option Zoom) (z : Zoom) : Zoom * Outcome :=
  match r with
  | Some z' => (z', Returned true)
  | None => (z, Threw)
  end.

Definition to1 (z : Zoom) : Zoom :=
  if Nat.eqb (curState z) 100 then finalize (set_curState 0 z)
  else if Nat.eqb (curState z) 3 then z
  else if Nat.eqb (curState z) 10 then set_curState 1 z
  else note ConsoleError z.

Definition to2 (z : Zoom) : Zoom :=
  if Nat.eqb (curState z) 3
  then finalize (setZoom identity (set_curState 0 z))
  else note ConsoleError z.

(** [reset(to2)]. *)
Definition reset (h : Host num) (z : Zoom) : Zoom :=
  if hasRAF h then set_frames (frames z ++ [mkAnim (activeZoom z) None]) z
  else to2 z.

Definition step (time : num) (a : Anim) (z : Zoom) : Zoom :=
  let startTime :=
    match anStart a with
    | Some t => if truthy t then t else time
    | None => time
    end in
  let progress := (time - startTime) / lit 100 in
  if progress >=? lit 1 then to2 z
  else
    let z := setZoom (avg (anZ a) identity progress) z in
    set_frames (frames z ++ [mkAnim (anZ a) (Some startTime)]) z.

Definition ts1 (h : Host num) (touches : option (list (Touch num)))
    (z : Zoom) : Zoom * Outcome :=
  if Nat.eqb (curState z) 0 then
    let z := set_curState 10 z in
    match setSrcAndDest h touches z with
    | Some z' => (set_timers (S (timers z')) z', Returned true)
    | None => (z, Threw)
    end
  else if Nat.eqb (curState z) 100 then
    let z := set_curState 3 z in
    (reset h z, Returned true)
  else if Nat.eqb (curState z) 2 then
    let z := finalize (set_curState 1 z) in
    finish (setSrcAndDest h touches z) z
  else if Nat.eqb (curState z) 3 then (z, Returned true)
  else complain touches z.

Definition ts2 (h : Host num) (touches : option (list (Touch num)))
    (z : Zoom) : Zoom * Outcome :=
  if Nat.eqb (curState z) 0 then
    let z := set_curState 2 z in
    finish (setSrcAndDest h touches z) z
  else if Nat.eqb (curState z) 1 then
    let z := finalize (set_curState 2 z) in
    finish (setSrcAndDest h touches z) z
  else if Nat.eqb (curState z) 10 then
    let z := finalize (set_curState 2 z) in
    finish (setSrcAndDest h touches z) z
  else if Nat.eqb (curState z) 3 then (z, Returned true)
  else complain touches z.

(** [setDest(touches); me.previewZoom()]. *)
Definition destThenPreview (h : Host num)
    (touches : option (list (Touch num))) (z : Zoom) : Zoom * Outcome :=
  match setDest h touches z with
  | Some z' => finish (previewZoom z') z'
  | None => (z, Threw)
  end.

Definition tm1 (h : Host num) (touches : option (list (Touch num)))
    (z : Zoom) : Zoom * Outcome :=
  if Nat.eqb (curState z) 1 then
    destThenPreview h touches (set_curState 1 z)
  else if Nat.eqb (curState z) 2 then
    let z := finalize (set_curState 1 z) in
    finish (setSrcAndDest h touches z) z
  else if Nat.eqb (curState z) 3 then (z, Returned true)
  else if Nat.eqb (curState z) 10 then
    destThenPreview h touches (set_curState 1 z)
  else complain touches z.

Definition tm2 (h : Host num) (touches : option (list (Touch num)))
    (z : Zoom) : Zoom * Outcome :=
  if Nat.eqb (curState z) 2 then
    destThenPreview h touches (set_curState 1 z)
  else if Nat.eqb (curState z) 3 then (z, Returned true)
  else complain touches z.

Definition te1 (h : Host num) (touches : option (list (Touch num)))
    (z : Zoom) : Zoom * Outcome :=
  if Nat.eqb (curState z) 1 then
    (finalize (set_curState 0 z), Returned true)
  else if Nat.eqb (curState z) 2 then
    let z := finalize (set_curState 1 z) in
    finish (setSrcAndDest h touches z) z
  else if Nat.eqb (curState z) 3 then (z, Returned true)
  else if Nat.eqb (curState z) 10 then
    (set_curState 100 z, Returned true)
  else complain touches z.

Definition te2 (h : Host num) (touches : option (list (Touch num)))
    (z : Zoom) : Zoom * Outcome :=
  if Nat.eqb (curState z) 2 then
    (finalize (set_curState 0 z), Returned true)
  else if Nat.eqb (curState z) 3 then (z, Returned true)
  else complain touches z.

Inductive Kind : Type := Start | Move | End_.

(** A listener: [handleTouchEvent(evt, cb)] with the [switch (ts)] of
    that listener as [cb]; the handlers are called without an
    argument. *)
Definition listener (h : Host num) (k : Kind) (evt : TouchEvent num)
    (z : Zoom) : Zoom * Outcome :=
  match touches evt with
  | None => (z, Returned false)
  | Some t =>
      let ts := length t in
      if Nat.eqb ts 1 then
        match k with
        | Start => ts1 h None z
        | Move => tm1 h None z
        | End_ => te1 h None z
        end
      else if Nat.eqb ts 2 then
        match k with
        | Start => ts2 h None z
        | Move => tm2 h None z
        | End_ => te2 h None z
        end
      else (z, Returned false)
  end.

(** What the host delivers: a touch event to its listener, a frame to
    the pending [step] callbacks, the expiry of a [to1] timer. *)
Inductive Event : Type :=
| TouchEv (k : Kind) (evt : TouchEvent num)
| FrameEv (time : num)
| TimerEv.

Definition deliver (h : Host num) (ev : Event) (z : Zoom) : Zoom :=
  match ev with
  | TouchEv k evt => fst (listener h k evt z)
  | FrameEv time =>
      fold_left (fun z a => step time a z) (frames z) (set_frames [] z)
  | TimerEv =>
      match timers z with
      | O => z
      | S n => to1 (set_timers n z)
      end
  end.

Definition deliverAll (h : Host num) (evs : list Event) (z : Zoom) : Zoom :=
  fold_left (fun z ev => deliver h ev z) evs z.

(** The object the constructor leaves; the placeholders [[0, 0]] of the
    coordinates are read as two points at the origin. *)
Definition newZoom : Zoom :=
  mkZoom 0 identity identity
    ((lit 0, lit 0), (lit 0, lit 0)) ((lit 0, lit 0), (lit 0, lit 0))
    [] [] 0.
End Machine.

Arguments Zoom : clear implicits.
Arguments Event : clear implicits.
Arguments Anim : clear implicits.
Arguments Note : clear implicits.
End BetaMachine.

(** ** The invariant of the earlier state machine *)

Module BetaInvariant.
Local Open Scope R_scope.

(** What never changes in the earlier version. *)
Definition still (z : BetaMachine.Zoom R) : Prop :=
  BetaMachine.activeZoom z = identity
  /\ BetaMachine.resultantZoom z = identity
  /\ Forall (fun a => BetaMachine.anZ a = identity) (BetaMachine.frames z)
  /\ Forall (fun e => e = BetaMachine.Painted identity
                      \/ e = BetaMachine.ConsoleError) (BetaMachine.notes z)
  /\ BetaMachine.srcCoords z = ((0, 0), (0, 0))
  /\ BetaMachine.destCoords z = ((0, 0), (0, 0))
  /\ BetaMachine.timers z = 0%nat
  /\ In (BetaMachine.curState z) [0; 1; 2; 3; 10; 100]%nat.
End BetaInvariant.

(** * Properties *)

Unset Implicit Arguments.

(** ** Exact arithmetic: the algebra over the reals *)

Module Exact.
Local Open Scope R_scope.

Ltac split_pairs :=
  repeat match goal with
         | p : (_ * _)%type |- _ => destruct p
         | p : Vector _ |- _ => destruct p
         | p : Matrix _ |- _ => destruct p
         | T : Transform _ |- _ => destruct T
         end.

Ltac unfold_algebra :=
  unfold run, zoom, cascade, avg, avgMatrix, avgVector, identity, mult,
    rotscale, justscale, rotate, apply, vcadd, scmult, minus, dot, wedge in *;
  cbn [fst snd TA Tb add sub mul div neg lit Arith_R] in *.

Lemma pair_eq (A B : Type) (a a' : A) (b b' : B) :
  a = a' -> b = b' -> (a, b) = (a', b').
Proof. intros; subst; reflexivity. Qed.

Ltac componentwise :=
  repeat first [ apply pair_eq | apply (f_equal2 (@mkTransform R)) ].

Lemma sum_squares_pos (x y : R) : (x, y) <> (0, 0) -> x * x + y * y <> 0.
Proof.
  intros Hne Hz.
  assert (x = 0) by nra.
  assert (y = 0) by nra.
  subst; apply Hne; reflexivity.
Qed.

Lemma nonzero_dot (a : Vector R) : a <> (0, 0) -> dot a a <> 0.
Proof. destruct a as [x y]; intro Hne; apply sum_squares_pos; exact Hne. Qed.

Lemma distinct_minus (s0 s1 : Vector R) : s0 <> s1 -> minus s1 s0 <> (0, 0).
Proof.
  destruct s0 as [x0 y0], s1 as [x1 y1]; unfold minus; cbn.
  intros Hne Hz; apply Hne.
  injection Hz as Hx Hy.
  apply pair_eq; lra.
Qed.

(** The matrix [rotscale a b] sends [a] to [b]. *)
Lemma rotscale_sends (a b : Vector R) :
  a <> (0, 0) -> apply (rotscale a b) a = b.
Proof.
  intro Ha; apply nonzero_dot in Ha.
  split_pairs; unfold_algebra; componentwise; field; exact Ha.
Qed.

(** In exact arithmetic: for a source pair [(s0, s1)] with nonzero source
    vector [a = s1 - s0] and any destination pair [(d0, d1)], the resolver
    with [rotate = true] returns the transform whose matrix is
    [rotate (dot a b / dot a a) (wedge a b / dot a a)], with [b = d1 - d0],
    and whose translation is [d0 - R s0]; that transform sends [s0] to [d0]
    and [s1] to [d1]. *)
Theorem zoom_rotate_fits (s0 s1 d0 d1 : Vector R) :
  minus s1 s0 <> (0, 0) ->
  let a := minus s1 s0 in
  let b := minus d1 d0 in
  let cosTerm := dot a b / dot a a in
  let sinTerm := wedge a b / dot a a in
  let Rm := rotate cosTerm sinTerm in
  let T := zoom (s0, s1) (d0, d1) true in
  T = mkTransform Rm (minus d0 (apply Rm s0))
  /\ run T s0 = d0
  /\ run T s1 = d1.
Proof.
  intros Ha a b cosTerm sinTerm Rm T.
  apply nonzero_dot in Ha.
  subst a b cosTerm sinTerm Rm T.
  split; [reflexivity|].
  split_pairs; unfold_algebra.
  split; componentwise; field; exact Ha.
Qed.

(** The concrete case of the design's round-trip test: scale 2, no
    rotation, translation (5, 5). *)
Example zoom_round_trip_exact :
  zoom ((0, 0), (10, 0)) ((5, 5), (25, 5)) true
  = mkTransform ((2, 0), (0, 2)) (5, 5) :> Transform R.
Proof. unfold_algebra; componentwise; field. Qed.

Lemma cascade_identity_l (T : Transform R) : cascade identity T = T.
Proof. split_pairs; unfold_algebra; componentwise; ring. Qed.

(** In exact arithmetic [cascade] is associative and [identity] is a unit
    for it on both sides. *)
Theorem cascade_monoid (T U V : Transform R) :
  cascade (cascade T U) V = cascade T (cascade U V)
  /\ cascade identity T = T
  /\ cascade T identity = T.
Proof.
  split_pairs; unfold_algebra.
  repeat split; componentwise; ring.
Qed.

(** [cascade T U] stands for running [U], then [T]. *)
Lemma cascade_run (T U : Transform R) (x : Vector R) :
  run (cascade T U) x = run T (run U x).
Proof. split_pairs; unfold_algebra; componentwise; ring. Qed.

(** In exact arithmetic [Transform.avg Z I p] is, entry by entry of the
    matrix and of the translation, [(1 - p) * z + p * i]; at [p = 0] it is
    [Z] and at [p = 1] it is [I]. *)
Theorem avg_linear_blend (Z I : Transform R) (p : R) :
  let blend (z i : R) := (1 - p) * z + p * i in
  let blendV (u v : Vector R) := (blend (fst u) (fst v), blend (snd u) (snd v)) in
  avg Z I p
  = mkTransform (blendV (fst (TA Z)) (fst (TA I)),
                 blendV (snd (TA Z)) (snd (TA I)))
                (blendV (Tb Z) (Tb I))
  /\ avg Z I 0 = Z
  /\ avg Z I 1 = I.
Proof.
  cbv zeta; split_pairs; unfold_algebra.
  repeat split; componentwise; ring.
Qed.

(** In exact arithmetic: with [rotate = false] and a nonzero source
    vector [a], the resolver's matrix has zero off-diagonal entries and
    both diagonal entries equal to [|b| / |a|], the quotient of the
    Euclidean norms: the number [k >= 0] with [k * |a| = |b|]. *)
Theorem zoom_scale_only (s0 s1 d0 d1 : Vector R) :
  minus s1 s0 <> (0, 0) ->
  let a := minus s1 s0 in
  let b := minus d1 d0 in
  let k := R_sqrt.sqrt (dot b b) / R_sqrt.sqrt (dot a a) in
  TA (zoom (s0, s1) (d0, d1) false) = ((k, 0), (0, k))
  /\ k * R_sqrt.sqrt (dot a a) = R_sqrt.sqrt (dot b b)
  /\ 0 <= k.
Proof.
  intros Ha a b k.
  assert (Hpos : 0 < R_sqrt.sqrt (dot a a)).
  { apply sqrt_lt_R0.
    apply nonzero_dot in Ha. fold a in Ha.
    destruct a as [x y]; unfold dot in *; cbn in *; nra. }
  split; [|split].
  - subst k a b. unfold zoom, justscale, rotate; cbn.
    rewrite Ropp_0. reflexivity.
  - subst k. field. lra.
  - subst k. apply Rmult_le_pos; [apply sqrt_pos|].
    left; apply Rinv_0_lt_compat; exact Hpos.
Qed.

(** The design's scale-only test: the pair (0,0),(10,0) sent to
    (0,0),(0,20) implies a quarter turn, and the result is the uniform
    scale 2 with no rotation. *)
Example zoom_scale_only_ignores_rotation :
  TA (zoom ((0, 0), (10, 0)) ((0, 0), (0, 20)) false)
  = ((2, 0), (0, 2)) :> Matrix R.
Proof.
  unfold zoom, justscale, rotate, minus, dot; cbn.
  replace ((0 - 0) * (0 - 0) + (20 - 0) * (20 - 0)) with (20 * 20) by ring.
  replace ((10 - 0) * (10 - 0) + (0 - 0) * (0 - 0)) with (10 * 10) by ring.
  rewrite !sqrt_square by lra.
  componentwise; first [lra | field].
Qed.

(** With both pairs equal and distinct points, the resolver returns the
    identity. *)
Lemma zoom_unmoved (s0 s1 : Vector R) :
  s0 <> s1 -> zoom (s0, s1) (s0, s1) true = identity.
Proof.
  intro Hne. apply distinct_minus, nonzero_dot in Hne.
  split_pairs; unfold_algebra; componentwise; field; exact Hne.
Qed.
End Exact.

(** ** Binary64: the resolver on a degenerate source pair *)

Module Binary64.
Import B64.

Notation "x [+] y" := (SFadd prec emax x y) (at level 50, left associativity).
Notation "x [-] y" := (SFsub prec emax x y) (at level 50, left associativity).
Notation "x [*] y" := (SFmul prec emax x y) (at level 40, left associativity).
Notation "x [/] y" := (SFdiv prec emax x y) (at level 40, left associativity).

Ltac by_cases :=
  intros;
  repeat match goal with
         | x : float |- _ => destruct x
         | x : spec_float |- _ => destruct x
         | s : bool |- _ => destruct s
         end;
  cbn in *; try discriminate; try reflexivity.

Lemma sub_diag (x : float) : zero_or_nan (x [-] x) = true.
Proof.
  destruct x as [s|s| |s m e]; try (destruct s; reflexivity); try reflexivity.
  unfold SFsub. rewrite Z.sub_diag. reflexivity.
Qed.

Lemma mul_zero_or_nan (x y : float) :
  zero_or_nan x = true -> zero_or_nan (x [*] y) = true.
Proof. by_cases. Qed.

Lemma add_zero_or_nan (x y : float) :
  zero_or_nan x = true -> zero_or_nan y = true ->
  zero_or_nan (x [+] y) = true.
Proof. by_cases. Qed.

Lemma sub_zero_or_nan (x y : float) :
  zero_or_nan x = true -> zero_or_nan y = true ->
  zero_or_nan (x [-] y) = true.
Proof. by_cases. Qed.

Lemma sqrt_zero_or_nan (x : float) :
  zero_or_nan x = true -> zero_or_nan (SFsqrt prec emax x) = true.
Proof. by_cases. Qed.

(** 0/0, 0/NaN, NaN/0 and NaN/NaN are NaN. *)
Lemma div_zero_or_nan (x y : float) :
  zero_or_nan x = true -> zero_or_nan y = true -> x [/] y = nan.
Proof. by_cases. Qed.

(** Nothing divided by a zero or by NaN is finite. *)
Lemma div_by_zero_or_nan (x y : float) :
  zero_or_nan y = true -> is_finite (x [/] y) = false.
Proof. by_cases. Qed.

Lemma mul_nan_r (x : float) : x [*] nan = nan.
Proof. by_cases. Qed.

Lemma add_nan_r (x : float) : x [+] nan = nan.
Proof. by_cases. Qed.

Lemma sub_nan_r (x : float) : x [-] nan = nan.
Proof. by_cases. Qed.

Lemma mul_not_finite_r (x k : float) :
  is_finite k = false -> is_finite (x [*] k) = false.
Proof. by_cases. Qed.

Lemma add_not_finite_l (x y : float) :
  is_finite x = false -> is_finite (x [+] y) = false.
Proof. by_cases. Qed.

Lemma add_not_finite_r (x y : float) :
  is_finite y = false -> is_finite (x [+] y) = false.
Proof. by_cases. Qed.

Lemma sub_not_finite_r (x y : float) :
  is_finite y = false -> is_finite (x [-] y) = false.
Proof. by_cases. Qed.

Ltac unfold_resolver :=
  unfold zoom, rotscale, justscale, rotate, apply, vcadd, scmult, minus,
    dot, wedge;
  cbn [fst snd TA Tb add sub mul div neg sqrt lit Arith_B64].

(** The source vector of a pair of coinciding points and its squared
    length. *)
Lemma coincident_source (x y : float) :
  zero_or_nan (x [-] x) = true
  /\ zero_or_nan (y [-] y) = true
  /\ zero_or_nan ((x [-] x) [*] (x [-] x) [+] (y [-] y) [*] (y [-] y)) = true.
Proof.
  pose proof (sub_diag x) as Hx. pose proof (sub_diag y) as Hy.
  repeat split; try assumption.
  apply add_zero_or_nan; apply mul_zero_or_nan; assumption.
Qed.

(** C4, as the code has it: the resolver has no guard for a source pair
    whose two points coincide.  With [rotate = true] every entry of the
    matrix and of the translation it returns is NaN; with [rotate = false]
    both diagonal entries are the same number, which is NaN or an infinity,
    and so is each entry of the translation. *)
Theorem zoom_coincident_source (s0 d0 d1 : Vector float) :
  zoom (s0, s0) (d0, d1) true
  = mkTransform ((nan, nan), (nan, nan)) (nan, nan)
  /\ (let T := zoom (s0, s0) (d0, d1) false in
      is_finite (fst (fst (TA T))) = false
      /\ snd (snd (TA T)) = fst (fst (TA T))
      /\ is_finite (fst (Tb T)) = false
      /\ is_finite (snd (Tb T)) = false).
Proof.
  destruct s0 as [x y], d0 as [dx dy], d1 as [ex ey].
  destruct (coincident_source x y) as (Hx & Hy & Hlen).
  split.
  - unfold_resolver.
    rewrite (div_zero_or_nan _ _
      (add_zero_or_nan _ _ (mul_zero_or_nan _ (ex [-] dx) Hx)
                           (mul_zero_or_nan _ (ey [-] dy) Hy)) Hlen).
    rewrite (div_zero_or_nan _ _
      (sub_zero_or_nan _ _ (mul_zero_or_nan _ (ey [-] dy) Hx)
                           (mul_zero_or_nan _ (ex [-] dx) Hy)) Hlen).
    cbn [SFopp nan].
    rewrite !mul_nan_r, !add_nan_r, !sub_nan_r. reflexivity.
  - cbv zeta. unfold_resolver.
    set (k := _ [/] SFsqrt prec emax _).
    assert (Hk : is_finite k = false).
    { apply div_by_zero_or_nan, sqrt_zero_or_nan, Hlen. }
    repeat split.
    + exact Hk.
    + apply sub_not_finite_r, add_not_finite_l, mul_not_finite_r, Hk.
    + apply sub_not_finite_r, add_not_finite_r, mul_not_finite_r, Hk.
Qed.
End Binary64.

(** ** What binary64 computes exactly *)

Module Binary64Exact.
Import B64 Finite64.

(** Rounding a mantissa that was multiplied by [2^52], at an exponent
    lowered by 52, gives the number back. *)
Lemma round_exact (s : bool) (m : positive) (e : Z) :
  bounded prec emax m e = true ->
  binary_round_aux prec emax s
    (Zpos (Pos.mul 4503599627370496 m)) (e + -52) loc_Exact
  = S754_finite s m e.
Proof.
  intro Hb. unfold bounded, canonical_mantissa in Hb.
  apply andb_prop in Hb as [Hc He].
  apply Z.eqb_eq in Hc.
  unfold binary_round_aux, shr_fexp.
  cbn [Pos.mul Zdigits2 digits2_pos shr_record_of_loc].
  match goal with
  | |- context [fexp prec emax ?x] =>
      replace x with (Z.pos (digits2_pos m) + e)%Z by lia
  end.
  rewrite Hc.
  replace (e - (e + -52))%Z with 52%Z by lia.
  cbn [shr iter_pos shr_1 orb shr_m loc_of_shr_record round_nearest_even
       Zdigits2 shr_record_of_loc].
  replace (e + -52 + 52)%Z with e by lia.
  rewrite Hc, Z.sub_diag. cbn [shr shr_m].
  rewrite He. reflexivity.
Qed.

Lemma mul_one_l (x : float) : number x = true -> mul (lit 1) x = x.
Proof.
  destruct x as [s|s| |s m e]; try discriminate; intro Hx.
  - reflexivity.
  - change (lit 1) with (S754_finite false 4503599627370496 (-52)).
    cbn [mul Arith_B64 SFmul xorb]. rewrite Z.add_comm.
    apply round_exact, Hx.
Qed.

Lemma mul_one_r (x : float) : number x = true -> mul x (lit 1) = x.
Proof.
  destruct x as [s|s| |s m e]; try discriminate; intro Hx.
  - destruct s; reflexivity.
  - change (lit 1) with (S754_finite false 4503599627370496 (-52)).
    cbn [mul Arith_B64 SFmul]. rewrite Pos.mul_comm, xorb_false_r.
    apply round_exact, Hx.
Qed.

Lemma mul_zero_l (x : float) :
  number x = true -> is_zero (mul (lit 0) x) = true.
Proof. destruct x; try discriminate; reflexivity. Qed.

Lemma mul_zero_r (x : float) :
  number x = true -> is_zero (mul x (lit 0)) = true.
Proof. destruct x; try discriminate; reflexivity. Qed.

Lemma same_refl (x : float) : same x x.
Proof. left; reflexivity. Qed.

Lemma add_zero_r (x y z : float) :
  same y x -> is_zero z = true -> same (add y z) x.
Proof.
  intros [->|[Hy Hx]] Hz.
  - destruct x as [s|s| |s m e], z as [t|t| |t n f]; try discriminate;
      try (left; reflexivity).
    right. destruct s, t; split; reflexivity.
  - destruct y as [s|s| |s m e], z as [t|t| |t n f]; try discriminate.
    right. destruct s, t; split; try reflexivity; exact Hx.
Qed.

Lemma add_zero_l (x y z : float) :
  same y x -> is_zero z = true -> same (add z y) x.
Proof.
  intros [->|[Hy Hx]] Hz.
  - destruct x as [s|s| |s m e], z as [t|t| |t n f]; try discriminate;
      try (left; reflexivity).
    right. destruct s, t; split; reflexivity.
  - destruct y as [s|s| |s m e], z as [t|t| |t n f]; try discriminate.
    right. destruct s, t; split; try reflexivity; exact Hx.
Qed.

Lemma add_zeros (x y : float) :
  is_zero x = true -> is_zero y = true -> is_zero (add x y) = true.
Proof.
  destruct x as [s|s| |s m e], y as [t|t| |t n f]; try discriminate.
  destruct s, t; reflexivity.
Qed.

Lemma numbers_entries (T : Transform float) :
  numbers T = true ->
  number (fst (fst (TA T))) = true /\ number (snd (fst (TA T))) = true
  /\ number (fst (snd (TA T))) = true /\ number (snd (snd (TA T))) = true
  /\ number (fst (Tb T)) = true /\ number (snd (Tb T)) = true.
Proof.
  unfold numbers, numbersV. intro Hn.
  repeat match goal with
         | H : _ && _ = true |- _ => apply andb_prop in H as [? ?]
         end.
  repeat split; assumption.
Qed.

Ltac open_transforms :=
  unfold sameT, sameV, avg, avgMatrix, avgVector, identity, cascade, mult,
    apply, vcadd, scmult;
  cbv zeta; cbn [fst snd TA Tb].

Ltac is_a_zero :=
  first [ reflexivity
        | apply mul_zero_l; assumption
        | apply mul_zero_r; assumption
        | apply add_zeros; is_a_zero ].

Ltac exact_step :=
  rewrite ?mul_one_l, ?mul_one_r by assumption;
  repeat first [ apply same_refl
               | apply add_zero_r; [|is_a_zero]
               | apply add_zero_l; [|is_a_zero] ].

(** On binary64 the identity is a two-sided unit on transforms whose
    entries are numbers, up to the sign of a zero entry. *)
Lemma identity_unit_numbers (T : Transform float) :
  numbers T = true ->
  sameT (cascade identity T) T /\ sameT (cascade T identity) T.
Proof.
  intro Hn.
  apply numbers_entries in Hn as (H00 & H01 & H10 & H11 & Hb0 & Hb1).
  destruct T as [[[a00 a01] [a10 a11]] [b0 b1]]. cbn [fst snd TA Tb] in *.
  split; open_transforms; repeat split; exact_step.
Qed.

(** On binary64 the interpolation reaches both ends on transforms whose
    entries are numbers, up to the sign of a zero entry. *)
Lemma avg_ends_numbers (Z I : Transform float) :
  numbers Z = true -> numbers I = true ->
  sameT (avg Z I (lit 0)) Z /\ sameT (avg Z I (lit 1)) I.
Proof.
  intros HZ HI.
  apply numbers_entries in HZ as (? & ? & ? & ? & ? & ?).
  apply numbers_entries in HI as (? & ? & ? & ? & ? & ?).
  destruct Z as [[[z00 z01] [z10 z11]] [zb0 zb1]].
  destruct I as [[[i00 i01] [i10 i11]] [ib0 ib1]].
  cbn [fst snd TA Tb] in *.
  split; open_transforms.
  - change (sub (lit 1) (lit 0)) with (lit 1 : float).
    repeat split; exact_step.
  - change (sub (lit 1) (lit 1)) with (lit 0 : float).
    repeat split; exact_step.
Qed.
End Binary64Exact.

(** ** The algebra in both arithmetics *)

Module Laws.
Import Exact Finite64.

(** C1, as the code has it: for every source pair [(s0, s1)] and every
    destination pair [(d0, d1)] the resolver with [rotate = true] returns,
    in the arithmetic it runs on, the transform whose matrix [R] is built
    from [cosTerm = dot(a,b)/dot(a,a)] and [sinTerm = wedge(a,b)/dot(a,a)],
    with [a = s1 - s0] and [b = d1 - d0], and whose translation is
    [d0 - R s0].  In exact arithmetic and for a nonzero [a] this transform
    sends [s0] exactly to [d0] and [s1] exactly to [d1]. *)
Theorem zoom_rotate_resolves :
  (forall (num : Type) (A : Arith num) (s0 s1 d0 d1 : Vector num),
      let a := (sub (fst s1) (fst s0), sub (snd s1) (snd s0)) in
      let b := (sub (fst d1) (fst d0), sub (snd d1) (snd d0)) in
      let cosTerm := div (dot a b) (dot a a) in
      let sinTerm := div (wedge a b) (dot a a) in
      let Rm := ((cosTerm, sinTerm), (neg sinTerm, cosTerm)) in
      zoom (s0, s1) (d0, d1) true = mkTransform Rm (minus d0 (apply Rm s0)))
  /\ (forall s0 s1 d0 d1 : Vector R,
         (fst s1 - fst s0, snd s1 - snd s0)%R <> (0, 0)%R ->
         run (zoom (s0, s1) (d0, d1) true) s0 = d0
         /\ run (zoom (s0, s1) (d0, d1) true) s1 = d1).
Proof.
  split.
  - intros. reflexivity.
  - intros s0 s1 d0 d1 Ha.
    exact (proj2 (zoom_rotate_fits s0 s1 d0 d1 Ha)).
Qed.

Lemma zoom_rotate_resolves_witness :
  let T : Transform R := zoom ((0, 0), (10, 0))%R ((5, 5), (25, 5))%R true in
  run T (0, 0)%R = (5, 5)%R /\ run T (10, 0)%R = (25, 5)%R.
Proof.
  cbv zeta.
  refine (proj2 zoom_rotate_resolves (0, 0)%R (10, 0)%R (5, 5)%R (25, 5)%R _).
  cbn. intro Hz. injection Hz as Hx _. lra.
Defined.

(** C2, as the code has it: in exact arithmetic [cascade] is associative
    and [identity] is a unit for it on both sides, for all transforms.
    On binary64 cascading with [identity] on either side returns the
    other transform when its six entries are numbers (neither NaN nor an
    infinity), up to the sign of a zero entry. *)
Theorem cascade_laws :
  (forall T U V : Transform R,
      cascade (cascade T U) V = cascade T (cascade U V)
      /\ cascade identity T = T
      /\ cascade T identity = T)
  /\ (forall T : Transform B64.float,
         numbers T = true ->
         sameT (cascade identity T) T /\ sameT (cascade T identity) T).
Proof.
  split.
  - exact cascade_monoid.
  - exact Binary64Exact.identity_unit_numbers.
Qed.

Lemma cascade_laws_witness :
  sameT (cascade identity Run64More.doubled) Run64More.doubled
  /\ sameT (cascade Run64More.doubled identity) Run64More.doubled.
Proof.
  refine (proj2 cascade_laws Run64More.doubled _).
  vm_compute. reflexivity.
Defined.

(** C7, as the code has it: for every source pair and every destination
    pair the resolver with [rotate = false] returns, in the arithmetic it
    runs on, the matrix with off-diagonal entries [0] and [-0] and both
    diagonal entries [sqrt(dot(b,b)) / sqrt(dot(a,a))], with [a = s1 - s0]
    and [b = d1 - d0]: no rotation is computed.  In exact arithmetic and
    for a nonzero [a] that entry is [|b| / |a|], the quotient of the
    Euclidean norms: the number [k >= 0] with [k * |a| = |b|]. *)
Theorem zoom_scale_only_resolves :
  (forall (num : Type) (A : Arith num) (s0 s1 d0 d1 : Vector num),
      let a := (sub (fst s1) (fst s0), sub (snd s1) (snd s0)) in
      let b := (sub (fst d1) (fst d0), sub (snd d1) (snd d0)) in
      let k := div (sqrt (dot b b)) (sqrt (dot a a)) in
      TA (zoom (s0, s1) (d0, d1) false) = ((k, lit 0), (neg (lit 0), k)))
  /\ (forall s0 s1 d0 d1 : Vector R,
         let ax := (fst s1 - fst s0)%R in
         let ay := (snd s1 - snd s0)%R in
         let bx := (fst d1 - fst d0)%R in
         let by_ := (snd d1 - snd d0)%R in
         (ax, ay) <> (0, 0)%R ->
         let la := R_sqrt.sqrt (ax * ax + ay * ay) in
         let lb := R_sqrt.sqrt (bx * bx + by_ * by_) in
         let k := (lb / la)%R in
         TA (zoom (s0, s1) (d0, d1) false) = ((k, 0), (0, k))%R
         /\ (k * la = lb)%R
         /\ (0 <= k)%R).
Proof.
  split.
  - intros. reflexivity.
  - intros s0 s1 d0 d1 ax ay bx by_ Ha la lb k.
    exact (zoom_scale_only s0 s1 d0 d1 Ha).
Qed.

Lemma zoom_scale_only_resolves_witness :
  TA (zoom ((0, 0), (10, 0))%R ((0, 0), (0, 20))%R false)
  = ((R_sqrt.sqrt ((0 - 0) * (0 - 0) + (20 - 0) * (20 - 0))
      / R_sqrt.sqrt ((10 - 0) * (10 - 0) + (0 - 0) * (0 - 0)), 0),
     (0, R_sqrt.sqrt ((0 - 0) * (0 - 0) + (20 - 0) * (20 - 0))
         / R_sqrt.sqrt ((10 - 0) * (10 - 0) + (0 - 0) * (0 - 0))))%R.
Proof.
  refine (proj1 (proj2 zoom_scale_only_resolves
                   (0, 0)%R (10, 0)%R (0, 0)%R (0, 20)%R _)).
  cbn. intro Hz. injection Hz as Hx _. lra.
Defined.

(** C8, as the code has it: for all transforms [Z] and [I] and every
    progress value [p], [Transform.avg Z I p] is, entry by entry of the
    matrix and of the translation, [(1 - p) * z + p * i] in the arithmetic
    it runs on.  In exact arithmetic it is [Z] at [p = 0] and [I] at
    [p = 1].  On binary64 it is [Z] at [p = 0] and [I] at [p = 1] when the
    entries of both are numbers (neither NaN nor an infinity), up to the
    sign of a zero entry. *)
Theorem avg_blend_laws :
  (forall (num : Type) (A : Arith num) (Z I : Transform num) (p : num),
      let blend (z i : num) := add (mul (sub (lit 1) p) z) (mul p i) in
      let blendV (u v : Vector num) :=
        (blend (fst u) (fst v), blend (snd u) (snd v)) in
      avg Z I p
      = mkTransform (blendV (fst (TA Z)) (fst (TA I)),
                     blendV (snd (TA Z)) (snd (TA I)))
                    (blendV (Tb Z) (Tb I)))
  /\ (forall Z I : Transform R, avg Z I 0%R = Z /\ avg Z I 1%R = I)
  /\ (forall Z I : Transform B64.float,
         numbers Z = true -> numbers I = true ->
         sameT (avg Z I (lit 0)) Z /\ sameT (avg Z I (lit 1)) I).
Proof.
  split; [|split].
  - intros. reflexivity.
  - intros Z I. exact (proj2 (avg_linear_blend Z I 0%R)).
  - exact Binary64Exact.avg_ends_numbers.
Qed.

Lemma avg_blend_laws_witness :
  sameT (avg Run64More.doubled identity (lit 0)) Run64More.doubled
  /\ sameT (avg Run64More.doubled identity (lit 1)) identity.
Proof.
  refine (proj2 (proj2 avg_blend_laws) Run64More.doubled identity _ _);
    vm_compute; reflexivity.
Defined.
End Laws.

(** ** The controller, for any number type *)

Section ControllerFacts.
Context {num : Type} `{Arith num}.

Lemma emit_PreventDefault_inert (z : Zoom num) :
  session (emit PreventDefault z) = session z
  /\ repaints (emit PreventDefault z) = repaints z
  /\ frames (emit PreventDefault z) = frames z
  /\ timers (emit PreventDefault z) = timers z.
Proof. repeat split. Qed.

Lemma handleTouchEvent_running cb (e : TouchEvent num) (z : Zoom num) :
  isAnimationRunning z = true ->
  handleTouchEvent cb e z = Some (emit PreventDefault z).
Proof.
  intro Hrun. unfold handleTouchEvent. cbn. rewrite Hrun. reflexivity.
Qed.

(** What one touch event does while the animation runs. *)
Lemma deliver_touch_running (h : Host num) (ev : Event num) (z : Zoom num) :
  isAnimationRunning z = true ->
  isTouch ev = true ->
  exists z', deliver h ev z = Some z'
             /\ session z' = session z
             /\ repaints z' = repaints z
             /\ frames z' = frames z
             /\ timers z' = timers z.
Proof.
  intros Hrun Hev.
  destruct ev as [e|e|e|time|hd]; try discriminate; cbn [deliver].
  - assert (Hs : handleTouchStart h e z = Some (emit PreventDefault z))
      by (apply handleTouchEvent_running; exact Hrun).
    rewrite Hs.
    exists (emit PreventDefault (emit PreventDefault z)).
    split; [|repeat split].
    apply handleTouchEvent_running. exact Hrun.
  - exists (emit PreventDefault z).
    split; [apply handleTouchEvent_running; exact Hrun|repeat split].
  - exists (emit PreventDefault z).
    split; [apply handleTouchEvent_running; exact Hrun|repeat split].
Qed.

(** Any run of touch events delivered while the animation runs (no frame
    and no timer in between) leaves the session, the repaints and the
    pending callbacks as they were. *)
Lemma touches_ignored_while_animating (h : Host num)
    (evs : list (Event num)) (z : Zoom num) :
  isAnimationRunning z = true ->
  forallb isTouch evs = true ->
  exists z', deliverAll h evs z = Some z'
             /\ session z' = session z
             /\ repaints z' = repaints z
             /\ frames z' = frames z
             /\ timers z' = timers z.
Proof.
  revert z. induction evs as [|ev evs IH]; intros z Hrun Hall.
  - exists z. repeat split.
  - cbn [forallb] in Hall. apply andb_prop in Hall as [Hev Hall].
    destruct (deliver_touch_running h ev z Hrun Hev)
      as (z1 & Hz1 & Hs1 & Hr1 & Hf1 & Ht1).
    assert (Hrun1 : isAnimationRunning z1 = true).
    { unfold session in Hs1. injection Hs1 as _ _ _ _ _ _ Hr. congruence. }
    destruct (IH z1 Hrun1 Hall) as (z2 & Hz2 & Hs2 & Hr2 & Hf2 & Ht2).
    exists z2. cbn [deliverAll]. rewrite Hz1.
    repeat split; congruence.
Qed.

(** C5: while [isAnimationRunning] is true a touch event changes nothing
    of the session and repaints nothing: each listener only calls
    [preventDefault] on the event and returns, so whichever touch event
    is delivered, the session, the repaints and the pending callbacks stay
    as they were. *)
Theorem touch_ignored_while_animating (h : Host num) (e : TouchEvent num)
    (z : Zoom num) :
  isAnimationRunning z = true ->
  handleZoom h e z = Some (emit PreventDefault z)
  /\ handleTouchStart h e z = Some (emit PreventDefault z)
  /\ (forall ev, isTouch ev = true ->
      exists z', deliver h ev z = Some z'
                 /\ session z' = session z
                 /\ repaints z' = repaints z
                 /\ frames z' = frames z
                 /\ timers z' = timers z).
Proof.
  intro Hrun. split; [|split].
  - apply handleTouchEvent_running. exact Hrun.
  - apply handleTouchEvent_running. exact Hrun.
  - intros ev Hev. apply deliver_touch_running; assumption.
Qed.

Lemma config_reset (h : Host num) (u : bool) (z : Zoom num) :
  config (reset h u z) = config z.
Proof.
  unfold reset. destruct (hasRAF h); reflexivity.
Qed.

(** [checkPan] by its two tests. *)
Lemma checkPan_cases (h : Host num) (rz : Transform num) (z : Zoom num) :
  checkPan h rz z
  = (negb (belowMin (config z) rz || aboveMax (config z) rz),
     if belowMin (config z) rz then reset h true (finalize z) else z).
Proof.
  unfold checkPan, belowMin, aboveMax.
  destruct (cfg_minScale (config z)) as [m|];
    [destruct (truthy m); cbn [andb];
     [destruct (le (fst (fst (TA rz))) m && le (snd (snd (TA rz))) m)|]|];
    rewrite ?config_reset; cbn [finalize set_activeZoom config];
    destruct (cfg_maxScale (config z)) as [M|]; cbn [orb negb];
    try reflexivity;
    destruct (truthy M && _); reflexivity.
Qed.

(** [checkBoundaries] changes the translation only. *)
Lemma checkBoundaries_keeps_A (h : Host num) (rz : Transform num)
    (z : Zoom num) :
  TA (checkBoundaries h rz z) = TA rz.
Proof.
  unfold checkBoundaries.
  destruct (cfg_boundaries (config z)); [|reflexivity].
  destruct (windowSize h) as [wh ww].
  destruct (lt ww wh); [reflexivity|].
  destruct (le (lit 0) (snd (Tb rz))); [reflexivity|].
  destruct (le _ (abs (snd (Tb rz)))); reflexivity.
Qed.

Lemma previewZoom_cases (h : Host num) (z : Zoom num) :
  previewZoom h z
  = if belowMin (config z) (proposedZoom z)
    then reset h true (finalize z)
    else if aboveMax (config z) (proposedZoom z) then z
    else repaint (set_resultantZoom
                    (checkBoundaries h (proposedZoom z) z) z).
Proof.
  unfold previewZoom. rewrite checkPan_cases.
  destruct (belowMin (config z) (proposedZoom z)); [reflexivity|].
  destruct (aboveMax (config z) (proposedZoom z)); reflexivity.
Qed.




(** Coordinates are always found for a nonempty list of touches. *)
Lemma getCoords_cons (h : Host num) (t0 : Touch num) (t : list (Touch num)) :
  getCoords h (t0 :: t)
  = Some match t with
         | [] =>
             let x := sub (pageX t0) (offsetLeft h) in
             let y := sub (pageY t0) (offsetTop h) in
             ((x, y), (add x (lit 1), add y (lit 1)))
         | t1 :: _ =>
             ((sub (pageX t0) (offsetLeft h), sub (pageY t0) (offsetTop h)),
              (sub (pageX t1) (offsetLeft h), sub (pageY t1) (offsetTop h)))
         end.
Proof. destruct t as [|t1 t]; reflexivity. Qed.

(** No touch event makes a listener throw. *)
Lemma handleZoom_total (h : Host num) (e : TouchEvent num) (z : Zoom num) :
  exists z', handleZoom h e z = Some z'.
Proof.
  unfold handleZoom, handleTouchEvent.
  cbn [emit isAnimationRunning].
  destruct (isAnimationRunning z); [eexists; reflexivity|].
  destruct (touches e) as [[|t0 t]|]; try (eexists; reflexivity).
  - destruct (negb _); eexists; reflexivity.
  - unfold setSrcAndDest, setDest. rewrite getCoords_cons.
    cbn [length Nat.eqb negb].
    destruct (negb _); eexists; reflexivity.
Qed.

Lemma handleTouchStart_total (h : Host num) (e : TouchEvent num)
    (z : Zoom num) :
  exists z', handleTouchStart h e z = Some z'.
Proof.
  unfold handleTouchStart, handleTouchEvent.
  cbn [emit isAnimationRunning].
  destruct (isAnimationRunning z); [eexists; reflexivity|].
  destruct (touches e) as [t|]; [|eexists; reflexivity].
  destruct (Nat.eqb (length t) 1); [|eexists; reflexivity].
  change (mayBeDoubleTap (emit PreventDefault z)) with (mayBeDoubleTap z).
  destruct (mayBeDoubleTap z); eexists; reflexivity.
Qed.

(** No event delivered to the controller is fatal. *)
Lemma deliver_total (h : Host num) (ev : Event num) (z : Zoom num) :
  exists z', deliver h ev z = Some z'.
Proof.
  destruct ev as [e|e|e|time|hd]; cbn [deliver].
  - destruct (handleTouchStart_total h e z) as [z1 ->].
    apply handleZoom_total.
  - apply handleZoom_total.
  - apply handleZoom_total.
  - eexists; reflexivity.
  - destruct (find _ (timers z)) as [[? [? cb]]|]; eexists; reflexivity.
Qed.

(** C9, as the code has it: a touch event with more than two contacts is
    not fatal, and while no animation runs [handleZoom] does not ignore
    it.  It takes the first two contacts as the point pair: on a change of
    the count it records the count, finalizes and captures the pair as
    source and destination; on an unchanged count it captures the pair
    as destination and runs the preview.  The dispatcher of
    zoom-1.0.7-beta.js does ignore it: no handler runs and the state is
    returned as it was. *)
Theorem extra_contacts (h : Host num) (t0 t1 t2 : Touch num)
    (rest : list (Touch num)) (z : Zoom num) :
  let t := t0 :: t1 :: t2 :: rest in
  let c := ((sub (pageX t0) (offsetLeft h), sub (pageY t0) (offsetTop h)),
            (sub (pageX t1) (offsetLeft h), sub (pageY t1) (offsetTop h))) in
  let z0 := emit PreventDefault z in
  handleZoom h (mkEvent (Some t)) z
  = Some (if isAnimationRunning z then z0
          else if Nat.eqb (length t) (curTouch z)
               then previewZoom h (set_destCoords c z0)
               else set_destCoords c (set_srcCoords c
                      (finalize (set_curTouch (length t) z0))))
  /\ (forall (St : Type) (on1 on2 : St -> bool * St) (st : St),
      Beta.listener on1 on2 (Some t) st = (false, st)).
Proof.
  cbv zeta. split; [|reflexivity].
  unfold handleZoom, handleTouchEvent.
  cbn [emit isAnimationRunning touches].
  destruct (isAnimationRunning z); [reflexivity|].
  unfold setSrcAndDest, setDest. rewrite getCoords_cons.
  change (Nat.eqb (length (t0 :: t1 :: t2 :: rest)) 0) with false.
  change (curTouch (emit PreventDefault z)) with (curTouch z).
  destruct (Nat.eqb (length (t0 :: t1 :: t2 :: rest)) (curTouch z));
    reflexivity.
Qed.
End ControllerFacts.

Module Run64Facts.
Import Run64.

(** The design's round-trip test, on binary64: scale 2, no rotation,
    translation (5, 5), and both source points land on their
    destinations. *)
Example zoom_round_trip :
  let T := zoom ((n 0, n 0), (n 10, n 0)) ((n 5, n 5), (n 25, n 5)) true in
  T = mkTransform ((n 2, n 0), (neg (n 0), n 2)) (n 5, n 5)
  /\ run T (n 0, n 0) = (n 5, n 5)
  /\ run T (n 10, n 0) = (n 25, n 5).
Proof. vm_compute. repeat split. Qed.

(** The design's scale-only test, on binary64. *)
Example zoom_scale_only_test :
  TA (zoom ((n 0, n 0), (n 10, n 0)) ((n 0, n 0), (n 0, n 20)) false)
  = ((n 2, n 0), (neg (n 0), n 2)).
Proof. vm_compute. reflexivity. Qed.

(** C4 as stated fails: two contacts at (3,4) give a transform none of
    whose entries is a number. *)
Lemma zoom_coincident_not_finite :
  all_finite
    (zoom ((n 3, n 4), (n 3, n 4)) ((n 0, n 0), (n 1, n 1)) true) = false
  /\ zoom ((n 3, n 4), (n 3, n 4)) ((n 0, n 0), (n 1, n 1)) true
     = mkTransform ((B64.nan, B64.nan), (B64.nan, B64.nan))
                   (B64.nan, B64.nan).
Proof. vm_compute. split; reflexivity. Qed.


(** The numbers of that run. *)
Example pan_frozen_values :
  let z := moved_to capped spread_and_pan in
  proposedZoom z = mkTransform ((n 3, n 0), (n 0, n 3)) (n 5, n 5)
  /\ resultantZoom z = identity
  /\ previewZoom page z = z.
Proof. vm_compute. repeat split. Qed.

(** The same through the listeners: after the move nothing has been
    repainted and the displayed transform is still the identity. *)
Example pan_frozen_events :
  let z := after capped [two_down; TouchMoveEv (touching spread_and_pan);
                         TouchMoveEv (touching [at_ 9 9; at_ 39 9])] in
  resultantZoom z = identity /\ repaints z = [] /\ frames z = [].
Proof. vm_compute. repeat split. Qed.


Lemma touch_ignored_while_animating_witness :
  handleZoom page (touching spread_and_pan) (after capped double_tap)
  = Some (emit PreventDefault (after capped double_tap)).
Proof.
  refine (proj1 (touch_ignored_while_animating page
                   (touching spread_and_pan) (after capped double_tap) _)).
  vm_compute. reflexivity.
Defined.


(** The snap-back run to its end: the first frame fixes the start time, a
    frame 100 ms later applies the identity, and the grace timer lowers
    [isAnimationRunning]. *)
Example min_snap_back_completes :
  let z := previewZoom page (moved_to floored pinch_in) in
  match deliverAll page [FrameEv (n 1000); FrameEv (n 1100); TimeoutEv 0] z
  with
  | Some z' =>
      resultantZoom z' = identity
      /\ isAnimationRunning z' = false
      /\ frames z' = []
      /\ repaints z' = [identity; avg identity identity (n 0)]
  | None => False
  end.
Proof. vm_compute. repeat split. Qed.

(** C9 as stated fails: with two fingers down, an event with three
    contacts sets the recorded count to 3. *)
Lemma third_contact_not_ignored :
  ~ extra_contacts_ignored page (after capped [two_down])
      [at_ 0 0; at_ 10 0; at_ 20 20].
Proof.
  unfold extra_contacts_ignored. intro Hign.
  destruct Hign as (z' & Hz & Hs); [cbn; lia|].
  vm_compute in Hz. injection Hz as <-.
  vm_compute in Hs. discriminate.
Qed.


(** Why the [minScale] test must not fire, for the second part of
    [max_ceiling]: without [requestAnimationFrame] the snap-back of a
    pinch below [minScale = 0.2] replaces the displayed scale 0.4 by the
    identity, whose diagonal entries exceed [maxScale = 0.5]. *)
Example snap_back_passes_ceiling :
  let z := Run64More.pinched_further in
  let z' := previewZoom Run64More.page_without_frames z in
  belowMin (config z) (proposedZoom z) = true
  /\ aboveMax (config z) (resultantZoom z) = false
  /\ resultantZoom z' = identity
  /\ aboveMax (config z) (resultantZoom z') = true.
Proof. vm_compute. repeat split. Qed.

(** And for its first part: with [minScale = 3] above [maxScale = 2], a
    proposal of scale 2.5 fires both tests, and the reset is started. *)
Example crossed_limits_reset :
  let z := moved_to Run64More.crossed [at_ 0 0; at_ 25 0] in
  aboveMax (config z) (proposedZoom z) = true
  /\ belowMin (config z) (proposedZoom z) = true
  /\ isAnimationRunning z = false
  /\ isAnimationRunning (previewZoom page z) = true.
Proof. vm_compute. repeat split. Qed.


(** C1 as stated fails on binary64: the pair (0,0),(49,0) resolved onto
    (0,0),(1,0) sends (49,0) to (0.9999999999999999, 0), one unit in the
    last place below 1. *)
Lemma rotate_resolver_rounds :
  ~ resolver_hits ((n 0, n 0), (n 49, n 0)) ((n 0, n 0), (n 1, n 0)).
Proof.
  unfold resolver_hits. cbn [fst snd]. intros [_ Hs1].
  assert (Hne : run (zoom ((n 0, n 0), (n 49, n 0)) ((n 0, n 0), (n 1, n 0))
                       true) (n 49, n 0)
                <> (n 1, n 0))
    by (vm_compute; discriminate).
  exact (Hne Hs1).
Qed.

(** The image of (49,0) in that run: the binary64 number just below 1. *)
Example rotate_resolver_image :
  run (zoom ((n 0, n 0), (n 49, n 0)) ((n 0, n 0), (n 1, n 0)) true)
      (n 49, n 0)
  = (S754_finite false 9007199254740991 (-53), n 0).
Proof. vm_compute. reflexivity. Qed.

(** C2 as stated fails on binary64: the translations by 0.3, 0.2 and 0.1
    cascade to 0.6 in one grouping and to 0.6000000000000001 in the other;
    cascading the identity with the scale [Infinity] gives NaN entries;
    cascading it with the translation by [-0] gives the translation by
    [+0]. *)
Lemma cascade_rounds :
  ~ cascade_associates (Run64More.shift (Run64More.tenths 3))
      (Run64More.shift (Run64More.tenths 2))
      (Run64More.shift (Run64More.tenths 1))
  /\ ~ identity_is_unit Run64More.infinite_scale
  /\ ~ identity_is_unit (Run64More.shift (neg (n 0))).
Proof.
  split; [|split].
  - unfold cascade_associates. intro Heq.
    assert (Hne : cascade (cascade (Run64More.shift (Run64More.tenths 3))
                             (Run64More.shift (Run64More.tenths 2)))
                    (Run64More.shift (Run64More.tenths 1))
                  <> cascade (Run64More.shift (Run64More.tenths 3))
                       (cascade (Run64More.shift (Run64More.tenths 2))
                          (Run64More.shift (Run64More.tenths 1))))
      by (vm_compute; discriminate).
    exact (Hne Heq).
  - intros [Hl _].
    assert (Hne : cascade identity Run64More.infinite_scale
                  <> Run64More.infinite_scale)
      by (vm_compute; discriminate).
    exact (Hne Hl).
  - intros [Hl _].
    assert (Hne : cascade identity (Run64More.shift (neg (n 0)))
                  <> Run64More.shift (neg (n 0)))
      by (vm_compute; discriminate).
    exact (Hne Hl).
Qed.

(** C7 as stated fails on binary64: the destination vector (6,9) is three
    times the source vector (2,3), and the diagonal entry is
    3.0000000000000004, one unit in the last place above 3. *)
Lemma scale_three_rounds :
  (n 6, n 9) = scmult (n 3) (n 2, n 3)
  /\ ~ scale_only_by ((n 0, n 0), (n 2, n 3)) ((n 0, n 0), (n 6, n 9)) (n 3).
Proof.
  split; [vm_compute; reflexivity|].
  unfold scale_only_by. cbv zeta. intros [Hk _].
  assert (Hne : fst (fst (TA (zoom ((n 0, n 0), (n 2, n 3))
                                   ((n 0, n 0), (n 6, n 9)) false)))
                <> n 3)
    by (vm_compute; discriminate).
  exact (Hne Hk).
Qed.

(** C8 as stated fails on binary64: from the scale [Infinity] the
    interpolation at [p = 1] has NaN entries where the identity has 0 and
    1, and from the translation by [-0] the interpolation at [p = 0] is
    the translation by [+0]. *)
Lemma avg_ends_missed :
  ~ avg_reaches_ends Run64More.infinite_scale identity
  /\ ~ avg_reaches_ends (Run64More.shift (neg (n 0))) identity.
Proof.
  split.
  - intros [_ H1].
    assert (Hne : avg Run64More.infinite_scale identity (lit 1) <> identity)
      by (vm_compute; discriminate).
    exact (Hne H1).
  - intros [H0 _].
    assert (Hne : avg (Run64More.shift (neg (n 0))) identity (lit 0)
                  <> Run64More.shift (neg (n 0)))
      by (vm_compute; discriminate).
    exact (Hne H0).
Qed.
End Run64Facts.

(** ** Unmoved contacts, in exact arithmetic *)

Module ExactRuns.
Import Exact RunExact.
Local Open Scope R_scope.

Ltac settle d :=
  first [ destruct d; [ | solve [exfalso; lra] ]
        | destruct d; [ solve [exfalso; lra] | ] ].

(** Decides the comparisons of constants met while running the code. *)
Ltac rdecide :=
  repeat (match goal with
          | |- context [Req_dec_T ?x ?y] => settle (Req_dec_T x y)
          | |- context [Rle_dec ?x ?y] => settle (Rle_dec x y)
          | |- context [Rlt_dec ?x ?y] => settle (Rlt_dec x y)
          end;
          rewrite ?Rabs_R0;
          cbn [opt_truthy opt_ge0 andb negb orb]).

Lemma proposed_unmoved (z : Zoom R) :
  destCoords z = srcCoords z ->
  fst (srcCoords z) <> snd (srcCoords z) ->
  cfg_rotate (config z) = true ->
  proposedZoom z = activeZoom z.
Proof.
  intros Hd Hne Hrot. unfold proposedZoom. rewrite Hd, Hrot.
  destruct (srcCoords z) as [s0 s1]. cbn [fst snd] in Hne.
  rewrite (zoom_unmoved s0 s1 Hne).
  apply cascade_identity_l.
Qed.

(** C10, as the code has it: for a pair of distinct points, resolving the
    pair onto itself with [rotate = true] gives the identity, which sends
    every point to itself; so on a touch-move in which the contacts have
    not moved [previewZoom] proposes the active transform itself.  That
    proposal is what gets displayed when neither scale test rejects it and
    boundary clamping is off. *)
Theorem unmoved_contacts (s0 s1 : Vector R) :
  s0 <> s1 ->
  zoom (s0, s1) (s0, s1) true = identity
  /\ (forall x, run (zoom (s0, s1) (s0, s1) true) x = x)
  /\ (forall (h : Host R) (z : Zoom R),
      srcCoords z = (s0, s1) ->
      destCoords z = (s0, s1) ->
      cfg_rotate (config z) = true ->
      proposedZoom z = activeZoom z
      /\ (belowMin (config z) (activeZoom z) = false ->
          aboveMax (config z) (activeZoom z) = false ->
          cfg_boundaries (config z) = false ->
          previewZoom h z = setZoom (activeZoom z) z)).
Proof.
  intro Hne. pose proof (zoom_unmoved s0 s1 Hne) as Hid.
  split; [exact Hid|]. split.
  - intro x. rewrite Hid. split_pairs. unfold_algebra.
    componentwise; ring.
  - intros h z Hs Hd Hrot.
    assert (Hp : proposedZoom z = activeZoom z).
    { apply proposed_unmoved; rewrite ?Hs, ?Hd; auto. }
    split; [exact Hp|].
    intros Hmin Hmax Hb.
    rewrite previewZoom_cases, Hp, Hmin, Hmax.
    unfold checkBoundaries. rewrite Hb. reflexivity.
Qed.

Lemma unmoved_contacts_witness :
  previewZoom page resting_free = setZoom (activeZoom resting_free) resting_free.
Proof.
  refine (proj2 (proj2 (proj2
            (unmoved_contacts (0 - 0, 0 - 0) (0 - 0 + 1, 0 - 0 + 1) _))
            page resting_free eq_refl eq_refl eq_refl)
          eq_refl eq_refl eq_refl).
  intro Heq. injection Heq as Hx _. lra.
Defined.

(** With [boundaries] on, a portrait viewport wider than the element
    moves the identity 300 to the right. *)
Lemma clamp_identity :
  checkBoundaries page identity resting = mkTransform ((1, 0), (0, 1)) (300, 0).
Proof.
  unfold checkBoundaries, windowSize, js_or, opt_truthy.
  cbn. rdecide.
  componentwise; try reflexivity; lra.
Qed.

(** C10 as stated fails: with [boundaries] on, a touch-move that finds
    the finger where it was displays a transform that sends the origin to
    (300, 0), and the active transform leaves it at the origin. *)
Lemma unmoved_preview_clamped : ~ unmoved_previews_active page resting.
Proof.
  unfold unmoved_previews_active. intro Hsame.
  assert (Hne : fst (srcCoords resting) <> snd (srcCoords resting)).
  { cbn. intro Heq. injection Heq as Hx _. lra. }
  specialize (Hsame eq_refl Hne eq_refl (0, 0)).
  rewrite previewZoom_cases in Hsame.
  rewrite (proposed_unmoved resting eq_refl Hne eq_refl) in Hsame.
  change (belowMin (config resting) (activeZoom resting)) with false in Hsame.
  change (aboveMax (config resting) (activeZoom resting)) with false in Hsame.
  cbn [repaint emit set_resultantZoom resultantZoom] in Hsame.
  change (activeZoom resting) with (@identity R _) in Hsame.
  rewrite clamp_identity in Hsame.
  unfold_algebra. injection Hsame as Hx. lra.
Qed.
End ExactRuns.

(** ** More on the algebra and the resolver, in exact arithmetic *)

Module ExactAlgebra.
Import Exact.
Local Open Scope R_scope.

(** X1: [cascade T U] is the transform that runs [U] and then [T], as the
    comment above [cascade] derives it. *)
Theorem cascade_composes (T U : Transform R) (x : Vector R) :
  run (cascade T U) x = run T (run U x).
Proof. split_pairs; unfold_algebra; componentwise; ring. Qed.

(** X2: [apply A] is linear and [mult A B] is the matrix of [apply B]
    followed by [apply A]. *)
Theorem apply_linear_mult_composes (A B : Matrix R) (l : R) (x y : Vector R) :
  apply A (vcadd x y) = vcadd (apply A x) (apply A y)
  /\ apply A (scmult l x) = scmult l (apply A x)
  /\ apply (mult A B) x = apply A (apply B x).
Proof. split_pairs; unfold_algebra; repeat split; componentwise; ring. Qed.

(** X3: in exact arithmetic, for a nonzero [a], [rotscale a b] sends
    [a] to [b] and is a similarity of ratio [|b| / |a|] that keeps the
    orientation: it multiplies every dot product and every wedge product
    by [dot b b / dot a a]. *)
Theorem rotscale_similarity (a b : Vector R) :
  a <> (0, 0) ->
  let Rm := rotscale a b in
  apply Rm a = b
  /\ similar Rm
  /\ (forall x y, dot (apply Rm x) (apply Rm y)
                  = dot b b / dot a a * dot x y)
  /\ (forall x y, wedge (apply Rm x) (apply Rm y)
                  = dot b b / dot a a * wedge x y).
Proof.
  intros Ha Rm. subst Rm. apply nonzero_dot in Ha.
  split; [|split; [|split]].
  - split_pairs; unfold_algebra; componentwise; field; exact Ha.
  - split; reflexivity.
  - intros x y. split_pairs; unfold_algebra. field. exact Ha.
  - intros x y. split_pairs; unfold_algebra. field. exact Ha.
Qed.

Lemma rotscale_similarity_witness :
  let Rm : Matrix R := rotscale (10, 0) (0, 20) in
  apply Rm (10, 0) = (0, 20)
  /\ similar Rm
  /\ (forall x y, dot (apply Rm x) (apply Rm y)
                  = dot (0, 20) (0, 20) / dot (10, 0) (10, 0) * dot x y)
  /\ (forall x y, wedge (apply Rm x) (apply Rm y)
                  = dot (0, 20) (0, 20) / dot (10, 0) (10, 0) * wedge x y).
Proof.
  apply (rotscale_similarity (10, 0) (0, 20)).
  intro Hz. injection Hz as Hx. lra.
Defined.



Lemma unit_step (x : R) : x + 1 - x = 1.
Proof. ring. Qed.

Lemma zoom_unit_diagonal (x y x' y' : R) (rot : bool) :
  zoom ((x, y), (x + 1, y + 1)) ((x', y'), (x' + 1, y' + 1)) rot
  = translation (x' - x, y' - y).
Proof.
  unfold translation, zoom, minus. cbn [fst snd sub add Arith_R].
  rewrite !unit_step.
  assert (Hs : R_sqrt.sqrt (1 * 1 + 1 * 1) <> 0).
  { apply Rgt_not_eq, sqrt_lt_R0. lra. }
  destruct rot; unfold_algebra; cbn [sqrt Arith_R];
    componentwise; field; first [exact Hs | lra].
Qed.

(** X5: in exact arithmetic one finger gives a pure translation.  The
    pair [getCoords] builds for a single contact is (p, p + (1,1)), and
    the resolver, with or without rotation, turns two such pairs into the
    identity matrix with the finger's displacement as translation;
    composed with any transform it moves every image point by that
    displacement. *)
Theorem one_finger_drag (h : Host R) (t t' : Touch R) (rot : bool) :
  let delta := (pageX t' - pageX t, pageY t' - pageY t) in
  exists s d,
    getCoords h [t] = Some s
    /\ getCoords h [t'] = Some d
    /\ zoom s d rot = translation delta
    /\ (forall U x, run (cascade (zoom s d rot) U) x = vcadd (run U x) delta).
Proof.
  intro delta.
  eexists; eexists.
  split; [reflexivity|]. split; [reflexivity|].
  cbn [pageX pageY add sub lit Arith_R].
  assert (Hz : zoom
                 ((pageX t - offsetLeft h, pageY t - offsetTop h),
                  (pageX t - offsetLeft h + 1, pageY t - offsetTop h + 1))
                 ((pageX t' - offsetLeft h, pageY t' - offsetTop h),
                  (pageX t' - offsetLeft h + 1, pageY t' - offsetTop h + 1))
                 rot
               = translation delta).
  { rewrite zoom_unit_diagonal. subst delta. unfold translation.
    componentwise; try reflexivity; ring. }
  split; [exact Hz|].
  intros U x. rewrite Hz. subst delta.
  unfold translation. split_pairs. unfold_algebra. componentwise; ring.
Qed.

(** X6: in exact arithmetic [Transform.avg] blends the images of every
    point: the interpolated transform sends [x] to the point of the
    segment from [Z(x)] to [I(x)] at the fraction [p]; between a transform
    and itself it is that transform. *)
Theorem avg_moves_points_on_segments (Z I : Transform R) (p : R)
    (x : Vector R) :
  run (avg Z I p) x = vcadd (scmult (1 - p) (run Z x)) (scmult p (run I x))
  /\ avg Z Z p = Z.
Proof.
  split_pairs; unfold_algebra. split; componentwise; ring.
Qed.
End ExactAlgebra.

(** ** The shape of the matrices the controller produces *)

Module ExactInvariant.
Import Exact.
Local Open Scope R_scope.















End ExactInvariant.

(** ** One animation at a time *)

Section AnimationFacts.
Context {num : Type} `{Arith num}.

Lemma filter_filter_le (A : Type) (p q : A -> bool) (l : list A) :
  length (filter q (filter p l)) <= length (filter q l).
Proof.
  induction l as [|a l IH]; [apply le_n|].
  cbn [filter]. destruct (p a); cbn [filter]; destruct (q a);
    cbn [length]; lia.
Qed.

Lemma filter_filter_same (A : Type) (p q : A -> bool) (l : list A) :
  (forall a, In a l -> p a = false -> q a = false) ->
  filter q (filter p l) = filter q l.
Proof.
  induction l as [|a l IH]; intro Hpq; [reflexivity|].
  cbn [filter].
  assert (IH' : filter q (filter p l) = filter q l).
  { apply IH. intros b Hb. apply Hpq. right. exact Hb. }
  destruct (p a) eqn:Ep.
  - cbn [filter]. rewrite IH'. reflexivity.
  - rewrite (Hpq a (or_introl eq_refl) Ep). exact IH'.
Qed.

Lemma filter_filter_last (A : Type) (p q : A -> bool) (l : list A) (a : A) :
  length (filter q l) <= 1 -> In a l -> q a = true -> p a = false ->
  filter q (filter p l) = [].
Proof.
  induction l as [|b l IH]; intros Hlen Hin Hq Hp; [destruct Hin|].
  cbn [filter] in *.
  destruct Hin as [-> | Hin].
  - rewrite Hp. rewrite Hq in Hlen. cbn [length] in Hlen.
    assert (Hl : filter q l = []).
    { destruct (filter q l); [reflexivity|cbn in Hlen; lia]. }
    pose proof (filter_filter_le _ p q l) as Hle. rewrite Hl in Hle.
    destruct (filter q (filter p l)); [reflexivity|cbn in Hle; lia].
  - destruct (q b) eqn:Eq.
    + cbn [length] in Hlen.
      assert (Hl : filter q l = []).
      { destruct (filter q l); [reflexivity|cbn in Hlen; lia]. }
      exfalso.
      assert (Hin' : In a (filter q l)) by (apply filter_In; split; assumption).
      rewrite Hl in Hin'. exact Hin'.
    + destruct (p b); cbn [filter]; rewrite ?Eq; apply IH; assumption.
Qed.

Lemma handles_distinct_filter (T : Type) (keep : nat * T -> bool)
    (ts : list (nat * T)) :
  NoDup (map fst ts) -> NoDup (map fst (filter keep ts)).
Proof.
  intro Hnd. induction ts as [|t ts IH]; [constructor|].
  cbn [map filter] in *. apply NoDup_cons_iff in Hnd as [Hnew Hrest].
  destruct (keep t); [|exact (IH Hrest)].
  cbn [map]. apply NoDup_cons; [|exact (IH Hrest)].
  intro Hin. apply Hnew.
  apply in_map_iff in Hin as (u & Hu & Hin).
  apply in_map_iff. exists u. split; [exact Hu|].
  apply filter_In in Hin. apply Hin.
Qed.

Lemma NoDup_map_fst_unique (A B : Type) (l : list (A * B)) (k : A)
    (v w : B) :
  NoDup (map fst l) -> In (k, v) l -> In (k, w) l -> v = w.
Proof.
  induction l as [|[k' u] l IH]; intros Hnd Hv Hw; [destruct Hv|].
  cbn [map fst] in Hnd. inversion Hnd as [|? ? Hnot Hnd']; subst.
  destruct Hv as [Ev | Hv], Hw as [Ew | Hw].
  - congruence.
  - injection Ev as -> ->. exfalso. apply Hnot.
    apply in_map_iff. exists (k, w). split; [reflexivity|exact Hw].
  - injection Ew as -> ->. exfalso. apply Hnot.
    apply in_map_iff. exists (k, v). split; [reflexivity|exact Hv].
  - apply IH; assumption.
Qed.

Lemma accounted_idle (z : Zoom num) :
  animationAccounted z -> isAnimationRunning z = false ->
  frames z = [] /\ filter isEnd (timers z) = [].
Proof.
  intros [Ht _] Hrun. unfold pendingAnimation in Ht. rewrite Hrun in Ht.
  destruct (frames z); [|cbn in Ht; lia].
  destruct (filter isEnd (timers z)); [split; reflexivity|cbn in Ht; lia].
Qed.

Lemma accounted_reset (h : Host num) (u : bool) (z : Zoom num) :
  animationAccounted z -> isAnimationRunning z = false ->
  animationAccounted (reset h u z).
Proof.
  intros Hacc Hrun.
  destruct (accounted_idle z Hacc Hrun) as [Hf He].
  destruct Hacc as [Ht Hfresh].
  unfold reset. destruct (hasRAF h).
  - split; [|exact Hfresh].
    unfold pendingAnimation, requestAnimationFrame.
    cbn [set_frames set_isAnimationRunning frames timers isAnimationRunning].
    rewrite Hf, He. reflexivity.
  - split; [|exact Hfresh].
    unfold pendingAnimation.
    cbn [setZoom repaint emit set_resultantZoom frames timers
         isAnimationRunning].
    exact Ht.
Qed.

Lemma accounted_previewZoom (h : Host num) (z : Zoom num) :
  animationAccounted z -> isAnimationRunning z = false ->
  animationAccounted (previewZoom h z).
Proof.
  intros Hacc Hrun. rewrite previewZoom_cases.
  destruct (belowMin _ _); [apply accounted_reset; assumption|].
  destruct (aboveMax _ _); exact Hacc.
Qed.

Lemma accounted_handleZoom (h : Host num) (e : TouchEvent num)
    (z z' : Zoom num) :
  animationAccounted z -> handleZoom h e z = Some z' ->
  animationAccounted z'.
Proof.
  intros Hacc. unfold handleZoom, handleTouchEvent.
  cbn [emit isAnimationRunning].
  destruct (isAnimationRunning z) eqn:Hrun; [intros [= <-]; exact Hacc|].
  destruct (touches e) as [t|]; [|intros [= <-]; exact Hacc].
  destruct (negb (Nat.eqb (length t) _)).
  - destruct (negb (Nat.eqb (length t) 0)); [|intros [= <-]; exact Hacc].
    unfold setSrcAndDest. destruct (getCoords h t); [|discriminate].
    intros [= <-]. exact Hacc.
  - destruct (negb (Nat.eqb (length t) 0)); [|intros [= <-]; exact Hacc].
    unfold setDest. destruct (getCoords h t); [|discriminate].
    intros [= <-]. apply accounted_previewZoom; [exact Hacc|exact Hrun].
Qed.

Lemma accounted_clearTimeout (hd : nat) (z : Zoom num) :
  animationAccounted z -> isAnimationRunning z = false ->
  animationAccounted (clearTimeout hd z).
Proof.
  intros Hacc Hrun.
  destruct (accounted_idle z Hacc Hrun) as [Hf He].
  destruct Hacc as [Ht [Hnd Hlt]].
  split; [|split].
  - unfold pendingAnimation, clearTimeout.
    cbn [set_timers frames timers isAnimationRunning].
    rewrite Hrun, Hf.
    pose proof (filter_filter_le _
                  (fun t : nat * (Z * Callback) => negb (Nat.eqb (fst t) hd))
                  isEnd (timers z)) as Hle.
    rewrite He in Hle. cbn [length] in *. lia.
  - apply handles_distinct_filter. exact Hnd.
  - apply Forall_forall. intros t Hin. apply filter_In in Hin as [Hin _].
    revert t Hin. apply Forall_forall. exact Hlt.
Qed.

Lemma accounted_setTimeout (cb : Callback) (ms : Z) (z : Zoom num) :
  freshHandles z -> freshHandles (snd (setTimeout cb ms z)).
Proof.
  intros [Hnd Hlt]. split.
  - cbn. constructor; [|exact Hnd].
    intro Hin. apply in_map_iff in Hin as (t & Ht & Hin).
    assert (Hb : fst t < nextHandle z)
      by (clear Ht; revert t Hin; apply Forall_forall; exact Hlt).
    lia.
  - cbn. constructor; [cbn; lia|].
    apply Forall_forall. intros t Hin.
    assert (Hb : fst t < nextHandle z)
      by (revert t Hin; apply Forall_forall; exact Hlt).
    lia.
Qed.

Lemma accounted_handleTouchStart (h : Host num) (e : TouchEvent num)
    (z z' : Zoom num) :
  animationAccounted z -> handleTouchStart h e z = Some z' ->
  animationAccounted z'.
Proof.
  intros Hacc. unfold handleTouchStart, handleTouchEvent.
  cbn [emit isAnimationRunning].
  destruct (isAnimationRunning z) eqn:Hrun; [intros [= <-]; exact Hacc|].
  destruct (touches e) as [t|]; [|intros [= <-]; exact Hacc].
  destruct (Nat.eqb (length t) 1); [|intros [= <-]; exact Hacc].
  change (mayBeDoubleTap (emit PreventDefault z)) with (mayBeDoubleTap z).
  destruct (mayBeDoubleTap z) as [hd|]; intros [= <-].
  - apply (accounted_reset h false
             (clearTimeout hd (emit PreventDefault z))).
    + apply (accounted_clearTimeout hd (emit PreventDefault z));
        [exact Hacc|exact Hrun].
    + exact Hrun.
  - destruct Hacc as [Ht Hfresh]. split.
    + unfold pendingAnimation in *. cbn. rewrite Hrun in *. exact Ht.
    + apply (accounted_setTimeout ClearDoubleTap 300 (emit PreventDefault z)).
      exact Hfresh.
Qed.

Lemma accounted_step (time : num) (a : Anim num) (z : Zoom num) :
  freshHandles z -> frames z = [] -> filter isEnd (timers z) = [] ->
  isAnimationRunning z = true ->
  animationAccounted (step time a z).
Proof.
  intros Hfresh Hf He Hrun. unfold step.
  destruct (le _ _).
  - split.
    + unfold pendingAnimation. cbn. rewrite Hf, He, Hrun. reflexivity.
    + apply (accounted_setTimeout EndAnimation 100 (setZoom (anTarget a) z)).
      exact Hfresh.
  - split; [|exact Hfresh].
    unfold pendingAnimation. cbn. rewrite Hf, He, Hrun. reflexivity.
Qed.

Lemma accounted_deliver (h : Host num) (ev : Event num) (z z' : Zoom num) :
  animationAccounted z -> deliver h ev z = Some z' ->
  animationAccounted z'.
Proof.
  intros Hacc. destruct ev as [e|e|e|time|hd]; cbn [deliver].
  - destruct (handleTouchStart h e z) as [z1|] eqn:E1; [|discriminate].
    intro E2. eapply accounted_handleZoom; [|exact E2].
    eapply accounted_handleTouchStart; eassumption.
  - apply accounted_handleZoom; exact Hacc.
  - apply accounted_handleZoom; exact Hacc.
  - intros [= <-]. destruct Hacc as [Ht Hfresh].
    unfold pendingAnimation in Ht.
    destruct (frames z) as [|a [|b l]] eqn:Hf.
    + split; [|exact Hfresh].
      unfold pendingAnimation. cbn. exact Ht.
    + cbn [fold_left].
      destruct (isAnimationRunning z) eqn:Hrun; [|cbn in Ht; lia].
      apply accounted_step; try assumption; try reflexivity.
      cbn [set_frames timers].
      destruct (filter isEnd (timers z)); [reflexivity|cbn in Ht; lia].
    + destruct (isAnimationRunning z); cbn in Ht; lia.
  - destruct (find _ (timers z)) as [[hd' [ms cb]]|] eqn:Efind;
      intros [= <-]; [|exact Hacc].
    apply find_some in Efind as [Hin Heq]. cbn [fst] in Heq.
    apply Nat.eqb_eq in Heq. subst hd'.
    destruct Hacc as [Ht [Hnd Hlt]].
    assert (Hfresh' : freshHandles (clearTimeout hd z)).
    { split.
      - apply handles_distinct_filter. exact Hnd.
      - apply Forall_forall. intros t Ht'.
        apply filter_In in Ht' as [Ht' _].
        revert t Ht'. apply Forall_forall. exact Hlt. }
    destruct cb.
    + split; [|exact Hfresh'].
      unfold pendingAnimation, clearTimeout in *.
      cbn [runCallback set_mayBeDoubleTap set_timers frames timers
           isAnimationRunning].
      rewrite filter_filter_same; [exact Ht|].
      intros [k [ms' cb']] Hin' Hk. cbn [fst] in Hk.
      apply negb_false_iff, Nat.eqb_eq in Hk. subst k.
      assert (E : (ms', cb') = (ms, ClearDoubleTap))
        by (eapply NoDup_map_fst_unique; eassumption).
      injection E as -> ->. reflexivity.
    + split; [|exact Hfresh'].
      unfold pendingAnimation, clearTimeout in *.
      cbn [runCallback set_isAnimationRunning set_timers frames timers
           isAnimationRunning].
      assert (Hone : 1 <= length (filter isEnd (timers z))).
      { assert (Hin' : In (hd, (ms, EndAnimation)) (filter isEnd (timers z)))
          by (apply filter_In; split; [exact Hin|reflexivity]).
        destruct (filter isEnd (timers z)); [destruct Hin'|cbn; lia]. }
      destruct (isAnimationRunning z); [|lia].
      assert (Hf : frames z = []) by (destruct (frames z); [reflexivity|cbn in Ht; lia]).
      rewrite Hf.
      rewrite (filter_filter_last _ _ isEnd (timers z) (hd, (ms, EndAnimation)));
        [reflexivity|lia|exact Hin|reflexivity|].
      cbn [fst]. rewrite Nat.eqb_refl. reflexivity.
Qed.

Lemma accounted_newZoom (cfg : Config num) (size : num * num) :
  animationAccounted (newZoom cfg size).
Proof. split; [reflexivity|]. split; constructor. Qed.

Lemma accounted_deliverAll (h : Host num) (evs : list (Event num))
    (z z' : Zoom num) :
  animationAccounted z -> deliverAll h evs z = Some z' ->
  animationAccounted z'.
Proof.
  revert z. induction evs as [|ev evs IH]; intros z Hacc.
  - intros [= <-]. exact Hacc.
  - cbn [deliverAll].
    destruct (deliver h ev z) as [zm|] eqn:E; [|discriminate].
    apply IH. eapply accounted_deliver; eassumption.
Qed.

(** X9: at most one reset animation is in flight, and the flag that makes
    the listeners ignore touches is raised exactly while a callback of
    the animation is pending.  After any events delivered to a new
    controller: while [isAnimationRunning] is false no frame callback and
    no grace timer is pending; while it is true exactly one of them is,
    either the next frame of the animation or the grace timer. *)
Theorem one_animation_at_a_time (h : Host num) (cfg : Config num)
    (size : num * num) (evs : list (Event num)) (z : Zoom num) :
  deliverAll h evs (newZoom cfg size) = Some z ->
  length (frames z) <= 1
  /\ (isAnimationRunning z = false ->
      frames z = [] /\ filter isEnd (timers z) = [])
  /\ (isAnimationRunning z = true ->
      length (frames z) + length (filter isEnd (timers z)) = 1).
Proof.
  intro Hrun.
  assert (Hacc : animationAccounted z).
  { eapply accounted_deliverAll; [apply accounted_newZoom|exact Hrun]. }
  split; [|split].
  - destruct Hacc as [Ht _]. unfold pendingAnimation in Ht.
    destruct (isAnimationRunning z); lia.
  - apply accounted_idle. exact Hacc.
  - intro Hr. destruct Hacc as [Ht _]. unfold pendingAnimation in Ht.
    rewrite Hr in Ht. exact Ht.
Qed.
End AnimationFacts.

(** ** Gestures and taps, for any number type *)

Section GestureFacts.
Context {num : Type} `{Arith num}.

(** X8: no sequence of touch events, frames and timer expiries makes a
    listener throw: coordinates are read from [evt.touches] only when it
    holds a contact, and a missing [evt.touches] is tolerated. *)
Theorem no_event_is_fatal (h : Host num) (evs : list (Event num))
    (z : Zoom num) :
  exists z', deliverAll h evs z = Some z'.
Proof.
  revert z. induction evs as [|ev evs IH]; intro z.
  - exists z. reflexivity.
  - cbn [deliverAll]. destruct (deliver_total h ev z) as [z1 ->].
    apply IH.
Qed.

Lemma handleZoom_same_count (h : Host num) (t : list (Touch num))
    (c : Coords num) (z : Zoom num) :
  isAnimationRunning z = false ->
  curTouch z <> 0 ->
  length t = curTouch z ->
  getCoords h t = Some c ->
  handleZoom h (mkEvent (Some t)) z
  = Some (previewZoom h (set_destCoords c (emit PreventDefault z))).
Proof.
  intros Hrun Hn Hlen Hc. unfold handleZoom, handleTouchEvent.
  cbn [emit isAnimationRunning touches curTouch]. rewrite Hrun, Hlen.
  rewrite Nat.eqb_refl. cbn [negb].
  destruct (Nat.eqb (curTouch z) 0) eqn:E;
    [apply Nat.eqb_eq in E; contradiction|].
  cbn [negb]. unfold setDest. rewrite Hc. reflexivity.
Qed.

(** X10: a gesture has no memory of the points it passed through.  While
    the number of contacts stays the same, an accepted preview is computed
    from the points captured when the gesture began, the current points
    and the active transform only: delivering a move to [t1] and then a
    move to [t2] leaves the same session as delivering the move to [t2]
    alone (provided the first move does not trigger the [minScale]
    reset). *)
Theorem gesture_has_no_memory (h : Host num) (z : Zoom num)
    (t1 t2 : list (Touch num)) (c1 c2 : Coords num) :
  isAnimationRunning z = false ->
  curTouch z <> 0 ->
  length t1 = curTouch z ->
  length t2 = curTouch z ->
  getCoords h t1 = Some c1 ->
  getCoords h t2 = Some c2 ->
  let rot := cfg_rotate (config z) in
  let p1 := cascade (zoom (srcCoords z) c1 rot) (activeZoom z) in
  let p2 := cascade (zoom (srcCoords z) c2 rot) (activeZoom z) in
  belowMin (config z) p1 = false ->
  belowMin (config z) p2 = false ->
  aboveMax (config z) p2 = false ->
  exists z12 z2,
    deliverAll h [TouchMoveEv (mkEvent (Some t1));
                  TouchMoveEv (mkEvent (Some t2))] z = Some z12
    /\ deliver h (TouchMoveEv (mkEvent (Some t2))) z = Some z2
    /\ session z12 = session z2
    /\ resultantZoom z2 = checkBoundaries h p2 z.
Proof.
  intros Hrun Hn Hl1 Hl2 Hc1 Hc2 rot p1 p2 Hmin1 Hmin2 Hmax2.
  cbn [deliverAll deliver].
  rewrite (handleZoom_same_count h t1 c1 z Hrun Hn Hl1 Hc1).
  rewrite (handleZoom_same_count h t2 c2 z Hrun Hn Hl2 Hc2).
  set (zd1 := set_destCoords c1 (emit PreventDefault z)).
  set (zd2 := set_destCoords c2 (emit PreventDefault z)).
  assert (E1 : previewZoom h zd1
               = if aboveMax (config z) p1 then zd1
                 else repaint (set_resultantZoom
                                 (checkBoundaries h p1 zd1) zd1)).
  { rewrite previewZoom_cases.
    change (proposedZoom zd1) with p1. change (config zd1) with (config z).
    rewrite Hmin1. reflexivity. }
  assert (E2 : previewZoom h zd2
               = repaint (set_resultantZoom (checkBoundaries h p2 zd2) zd2)).
  { rewrite previewZoom_cases.
    change (proposedZoom zd2) with p2. change (config zd2) with (config z).
    rewrite Hmin2, Hmax2. reflexivity. }
  set (z1 := previewZoom h zd1) in *.
  assert (Hz1 : isAnimationRunning z1 = false /\ curTouch z1 = curTouch z
                /\ srcCoords z1 = srcCoords z /\ activeZoom z1 = activeZoom z
                /\ config z1 = config z /\ pixelSize z1 = pixelSize z
                /\ mayBeDoubleTap z1 = mayBeDoubleTap z).
  { rewrite E1. destruct (aboveMax (config z) p1);
      repeat split; try reflexivity; exact Hrun. }
  destruct Hz1 as (Hr1 & Hk1 & Hs1 & Ha1 & Hcf1 & Hp1 & Hm1).
  assert (Hn1 : curTouch z1 <> 0) by (rewrite Hk1; exact Hn).
  assert (Hl21 : length t2 = curTouch z1) by (rewrite Hk1; exact Hl2).
  rewrite (handleZoom_same_count h t2 c2 z1 Hr1 Hn1 Hl21 Hc2).
  set (zd12 := set_destCoords c2 (emit PreventDefault z1)).
  assert (E12 : previewZoom h zd12
                = repaint (set_resultantZoom
                             (checkBoundaries h p2 zd12) zd12)).
  { rewrite previewZoom_cases.
    assert (Hp : proposedZoom zd12 = p2).
    { unfold proposedZoom, zd12.
      cbn [set_destCoords emit srcCoords destCoords config activeZoom].
      rewrite Hs1, Ha1, Hcf1. reflexivity. }
    rewrite Hp. change (config zd12) with (config z1). rewrite Hcf1.
    rewrite Hmin2, Hmax2. reflexivity. }
  exists (previewZoom h zd12), (previewZoom h zd2).
  split; [reflexivity|]. split; [reflexivity|].
  rewrite E12, E2.
  assert (Hb : checkBoundaries h p2 zd12 = checkBoundaries h p2 zd2).
  { unfold checkBoundaries, zd12, zd2.
    cbn [set_destCoords emit config pixelSize]. rewrite Hcf1, Hp1.
    reflexivity. }
  rewrite Hb. split.
  - unfold session, zd12, zd2.
    cbn [repaint emit set_resultantZoom set_destCoords srcCoords destCoords
         activeZoom resultantZoom curTouch mayBeDoubleTap isAnimationRunning].
    rewrite Hs1, Ha1, Hk1, Hm1, Hr1, Hrun. reflexivity.
  - reflexivity.
Qed.

Lemma find_after_clear (hd : nat) (l : list (nat * (Z * Callback))) :
  find (fun t => Nat.eqb (fst t) hd)
       (filter (fun t => negb (Nat.eqb (fst t) hd)) l) = None.
Proof.
  induction l as [|t l IH]; [reflexivity|].
  cbn [filter]. destruct (Nat.eqb (fst t) hd) eqn:E; cbn [negb]; [exact IH|].
  cbn [find]. rewrite E. exact IH.
Qed.

Lemma handleTouchStart_arms (h : Host num) (t : Touch num) (z : Zoom num) :
  isAnimationRunning z = false ->
  mayBeDoubleTap z = None ->
  handleTouchStart h (mkEvent (Some [t])) z
  = Some (set_mayBeDoubleTap (Some (nextHandle z))
            (snd (setTimeout ClearDoubleTap 300 (emit PreventDefault z)))).
Proof.
  intros Hrun Hdt. unfold handleTouchStart, handleTouchEvent.
  cbn [emit isAnimationRunning touches length Nat.eqb mayBeDoubleTap].
  rewrite Hrun, Hdt. reflexivity.
Qed.

Lemma handleTouchStart_fires (h : Host num) (t : Touch num) (hd : nat)
    (z : Zoom num) :
  isAnimationRunning z = false ->
  mayBeDoubleTap z = Some hd ->
  handleTouchStart h (mkEvent (Some [t])) z
  = Some (set_mayBeDoubleTap None
            (reset h false (clearTimeout hd (emit PreventDefault z)))).
Proof.
  intros Hrun Hdt. unfold handleTouchStart, handleTouchEvent.
  cbn [emit isAnimationRunning touches length Nat.eqb mayBeDoubleTap].
  rewrite Hrun, Hdt. reflexivity.
Qed.

Lemma handleZoom_count_change (h : Host num) (t : list (Touch num))
    (z : Zoom num) :
  isAnimationRunning z = false ->
  length t <> curTouch z ->
  handleZoom h (mkEvent (Some t)) z
  = match t with
    | [] => Some (finalize (set_curTouch 0 (emit PreventDefault z)))
    | _ :: _ =>
        setSrcAndDest h t
          (finalize (set_curTouch (length t) (emit PreventDefault z)))
    end.
Proof.
  intros Hrun Hn. unfold handleZoom, handleTouchEvent.
  cbn [emit isAnimationRunning touches curTouch]. rewrite Hrun.
  destruct (Nat.eqb (length t) (curTouch z)) eqn:E;
    [apply Nat.eqb_eq in E; contradiction|].
  cbn [negb]. destruct t; reflexivity.
Qed.

(** X11: the double tap.  On an idle controller a one-contact
    [touchstart] arms a 300 ms timer and remembers its handle.  A second
    one-contact [touchstart] that arrives while the handle is remembered
    cancels the timer and starts the reset animation from the displayed
    transform; its own [handleZoom] listener is then already ignored, so
    nothing is repainted and the contact count stays 0.  If the timer
    fires first, the second tap only arms a new timer. *)
Theorem double_tap_detection (h : Host num) (z : Zoom num) (t1 t2 : Touch num) :
  isAnimationRunning z = false ->
  curTouch z = 0 ->
  mayBeDoubleTap z = None ->
  hasRAF h = true ->
  let tap1 := TouchStartEv (mkEvent (Some [t1])) in
  let lift := TouchEndEv (mkEvent (Some [])) in
  let tap2 := TouchStartEv (mkEvent (Some [t2])) in
  let nh := nextHandle z in
  (exists z1,
      deliver h tap1 z = Some z1
      /\ mayBeDoubleTap z1 = Some nh
      /\ timers z1 = (nh, (300%Z, ClearDoubleTap)) :: timers z
      /\ isAnimationRunning z1 = false)
  /\ (exists z2 target,
      deliverAll h [tap1; lift; tap2] z = Some z2
      /\ isAnimationRunning z2 = true
      /\ mayBeDoubleTap z2 = None
      /\ find (fun t => Nat.eqb (fst t) nh) (timers z2) = None
      /\ frames z2 = frames z ++ [mkAnim (resultantZoom z) target None]
      /\ resultantZoom z2 = resultantZoom z
      /\ repaints z2 = repaints z
      /\ curTouch z2 = 0)
  /\ (exists z3,
      deliverAll h [tap1; lift; TimeoutEv nh; tap2] z = Some z3
      /\ isAnimationRunning z3 = false
      /\ mayBeDoubleTap z3 = Some (S nh)
      /\ frames z3 = frames z
      /\ resultantZoom z3 = resultantZoom z
      /\ repaints z3 = repaints z).
Proof.
  intros Hrun Hcur Hdt Hraf. cbv zeta.
  (* the first tap *)
  set (za := set_mayBeDoubleTap (Some (nextHandle z))
               (snd (setTimeout ClearDoubleTap 300 (emit PreventDefault z)))).
  assert (Ea : handleTouchStart h (mkEvent (Some [t1])) z = Some za)
    by (apply handleTouchStart_arms; assumption).
  destruct (getCoords h [t1]) as [c1|] eqn:Ec1;
    [|rewrite getCoords_cons in Ec1; discriminate].
  set (zb := set_destCoords c1 (set_srcCoords c1
               (finalize (set_curTouch 1 (emit PreventDefault za))))).
  assert (Eb : handleZoom h (mkEvent (Some [t1])) za = Some zb).
  { rewrite handleZoom_count_change.
    - unfold setSrcAndDest. rewrite Ec1. reflexivity.
    - exact Hrun.
    - cbn. rewrite Hcur. discriminate. }
  (* the finger lifts *)
  set (zc := finalize (set_curTouch 0 (emit PreventDefault zb))).
  assert (Ec : handleZoom h (mkEvent (Some [])) zb = Some zc).
  { rewrite handleZoom_count_change; [reflexivity|exact Hrun|].
    cbn. discriminate. }
  assert (E1 : deliver h (TouchStartEv (mkEvent (Some [t1]))) z = Some zb)
    by (cbn [deliver]; rewrite Ea; exact Eb).
  assert (E2 : deliver h (TouchEndEv (mkEvent (Some []))) zb = Some zc)
    by exact Ec.
  split; [|split].
  - exists zb. split; [exact E1|].
    repeat split. exact Hrun.
  - (* the second tap finds the handle *)
    set (zd := set_mayBeDoubleTap None
                 (reset h false
                    (clearTimeout (nextHandle z) (emit PreventDefault zc)))).
    assert (Ed : handleTouchStart h (mkEvent (Some [t2])) zc = Some zd)
      by (apply handleTouchStart_fires; [exact Hrun|reflexivity]).
    assert (Hd : isAnimationRunning zd = true).
    { unfold zd, reset. rewrite Hraf. reflexivity. }
    exists (emit PreventDefault zd).
    eexists.
    split.
    { assert (Ei : handleZoom h (mkEvent (Some [t2])) zd
                   = Some (emit PreventDefault zd))
        by (apply handleTouchEvent_running; exact Hd).
      cbn [deliverAll]. rewrite E1, E2. cbn [deliver].
      rewrite Ed, Ei. reflexivity. }
    unfold zd, reset. rewrite Hraf.
    cbn [emit set_mayBeDoubleTap requestAnimationFrame set_frames
         set_isAnimationRunning clearTimeout set_timers isAnimationRunning
         mayBeDoubleTap timers frames resultantZoom curTouch activeZoom
         finalize set_activeZoom set_curTouch].
    split; [reflexivity|]. split; [reflexivity|].
    split; [apply find_after_clear|].
    split; [reflexivity|].
    repeat split.
  - (* the timer fires before the second tap *)
    set (ze := runCallback ClearDoubleTap (clearTimeout (nextHandle z) zc)).
    assert (Ee : deliver h (TimeoutEv (nextHandle z)) zc = Some ze).
    { cbn [deliver].
      change (timers zc)
        with ((nextHandle z, (300%Z, ClearDoubleTap)) :: timers z).
      cbn [find fst]. rewrite Nat.eqb_refl. reflexivity. }
    set (zf := set_mayBeDoubleTap (Some (nextHandle ze))
                 (snd (setTimeout ClearDoubleTap 300
                         (emit PreventDefault ze)))).
    assert (Ef : handleTouchStart h (mkEvent (Some [t2])) ze = Some zf)
      by (apply handleTouchStart_arms; [exact Hrun|reflexivity]).
    destruct (getCoords h [t2]) as [c2|] eqn:Ec2;
      [|rewrite getCoords_cons in Ec2; discriminate].
    exists (set_destCoords c2 (set_srcCoords c2
              (finalize (set_curTouch 1 (emit PreventDefault zf))))).
    split.
    { cbn [deliverAll]. rewrite E1, E2, Ee. cbn [deliver]. rewrite Ef.
      rewrite handleZoom_count_change.
      - unfold setSrcAndDest. rewrite Ec2. reflexivity.
      - exact Hrun.
      - cbn. discriminate. }
    repeat split. exact Hrun.
Qed.
End GestureFacts.

(** ** The boundary clamp, in exact arithmetic *)

Module ExactBoundaries.
Import Exact.
Local Open Scope R_scope.

(** Splits on every comparison the code makes. *)
Ltac rcases :=
  repeat (match goal with
          | |- context [Req_dec_T ?x ?y] => destruct (Req_dec_T x y)
          | |- context [Rle_dec ?x ?y] => destruct (Rle_dec x y)
          | |- context [Rlt_dec ?x ?y] => destruct (Rlt_dec x y)
          end;
          cbn [opt_truthy opt_ge0 andb negb orb fst snd TA Tb truthy le lt
               Arith_R] in *).

Ltac rabs :=
  repeat match goal with
         | H : context [Rabs ?x] |- _ =>
             destruct (Rcase_abs x);
             [rewrite (Rabs_left x) in * by assumption
             |rewrite (Rabs_right x) in * by assumption]
         end.

Ltac open_clamp Hb :=
  unfold checkBoundaries; rewrite Hb;
  destruct (windowSize _) as [wh ww];
  cbn [fst snd TA Tb le lt add sub mul div neg abs lit Arith_R] in *.

(** X16: the horizontal clamp of a portrait viewport, in exact arithmetic.
    With [boundaries] on and the viewport higher than wide, content at least
    as wide as the viewport ends with a horizontal translation between
    [viewport width - content width] and 0, and narrower content is always
    put at [viewport width - content width], whatever translation was
    proposed. *)
Theorem portrait_horizontal_clamp (h : Host R) (rz : Transform R)
    (z : Zoom R) :
  cfg_boundaries (config z) = true ->
  snd (windowSize h) < fst (windowSize h) ->
  let ww := snd (windowSize h) in
  let width := fst (pixelSize z) * fst (fst (TA rz)) in
  let b0' := fst (Tb (checkBoundaries h rz z)) in
  (ww <= width -> ww - width <= b0' <= 0)
  /\ (width < ww -> b0' = ww - width).
Proof.
  intros Hb Hport ww width b0'. subst ww width b0'. revert Hport.
  open_clamp Hb. intro Hport.
  destruct (Rlt_dec ww wh) as [_|Hn]; [|contradiction].
  cbn [Tb fst].
  split; intro Hw; rcases; rabs; lra.
Qed.

Lemma portrait_horizontal_clamp_witness :
  let rz : Transform R := mkTransform ((5, 0), (0, 5)) (40, 0) in
  let ww := snd (windowSize RunExact.page) in
  let width := fst (pixelSize RunExact.resting) * fst (fst (TA rz)) in
  let b0' := fst (Tb (checkBoundaries RunExact.page rz RunExact.resting)) in
  (ww <= width -> ww - width <= b0' <= 0)
  /\ (width < ww -> b0' = ww - width).
Proof.
  apply (portrait_horizontal_clamp RunExact.page
           (mkTransform ((5, 0), (0, 5)) (40, 0)) RunExact.resting).
  - reflexivity.
  - unfold windowSize, js_or, RunExact.page. cbn.
    repeat match goal with
           | |- context [Req_dec_T ?x ?y] => destruct (Req_dec_T x y)
           end; lra.
Defined.

Lemma page_is_portrait :
  snd (windowSize RunExact.page) < fst (windowSize RunExact.page).
Proof.
  unfold windowSize, js_or, RunExact.page. cbn.
  repeat match goal with
         | |- context [Req_dec_T ?x ?y] => destruct (Req_dec_T x y)
         end; lra.
Qed.

(** X17: the vertical clamp of a portrait viewport, in exact arithmetic.
    With [yTopFormula = -(wh - ph)/2] and [yBottomFormula = (wh - ph)/2 -
    (height - ph)], both different from 0, the vertical translation ends
    between the two: between [yBottomFormula] and [yTopFormula] when the
    content is at least as high as the viewport, between [yTopFormula] and
    [yBottomFormula] when it is lower. *)
Theorem portrait_vertical_clamp (h : Host R) (rz : Transform R)
    (z : Zoom R) :
  cfg_boundaries (config z) = true ->
  snd (windowSize h) < fst (windowSize h) ->
  let wh := fst (windowSize h) in
  let ph := snd (pixelSize z) in
  let height := ph * snd (snd (TA rz)) in
  let yTopFormula := (wh - ph) / 2 * -1 in
  let yBottomFormula := (wh - ph) / 2 - (height - ph) in
  yTopFormula <> 0 ->
  yBottomFormula <> 0 ->
  let b1' := snd (Tb (checkBoundaries h rz z)) in
  (wh <= height -> yBottomFormula <= b1' <= yTopFormula)
  /\ (height < wh -> yTopFormula <= b1' <= yBottomFormula).
Proof.
  intros Hb Hport wh ph height yTop yBot.
  subst wh ph height yTop yBot. revert Hport.
  open_clamp Hb. intros Hport Ht Hbt.
  destruct (Rlt_dec ww wh) as [_|Hn]; [|contradiction].
  cbn [Tb snd].
  split; intro Hh; rcases; lra.
Qed.

Lemma portrait_vertical_clamp_witness :
  let rz : Transform R := mkTransform ((10, 0), (0, 10)) (0, 500) in
  let wh := fst (windowSize RunExact.page) in
  let ph := snd (pixelSize RunExact.resting) in
  let height := ph * snd (snd (TA rz)) in
  let yTopFormula := (wh - ph) / 2 * -1 in
  let yBottomFormula := (wh - ph) / 2 - (height - ph) in
  let b1' := snd (Tb (checkBoundaries RunExact.page rz RunExact.resting)) in
  (wh <= height -> yBottomFormula <= b1' <= yTopFormula)
  /\ (height < wh -> yTopFormula <= b1' <= yBottomFormula).
Proof.
  assert (Hw : fst (windowSize RunExact.page) = 800).
  { unfold windowSize, js_or, RunExact.page. cbn.
    destruct (Req_dec_T 800 0); [lra|reflexivity]. }
  apply (portrait_vertical_clamp RunExact.page
           (mkTransform ((10, 0), (0, 10)) (0, 500)) RunExact.resting).
  - reflexivity.
  - exact page_is_portrait.
  - rewrite Hw. cbn. lra.
  - rewrite Hw. cbn. lra.
Defined.

(** X18: the vertical clamp of a landscape viewport, in exact arithmetic.
    With [boundaries] on and the viewport not higher than wide, content
    higher than the viewport ends with a vertical translation between
    [viewport height - content height] and 0; any translation that is not
    negative becomes 0. *)
Theorem landscape_vertical_clamp (h : Host R) (rz : Transform R)
    (z : Zoom R) :
  cfg_boundaries (config z) = true ->
  fst (windowSize h) <= snd (windowSize h) ->
  let wh := fst (windowSize h) in
  let height := snd (pixelSize z) * snd (snd (TA rz)) in
  let b1' := snd (Tb (checkBoundaries h rz z)) in
  (wh < height -> wh - height <= b1' <= 0)
  /\ (0 <= snd (Tb rz) -> b1' = 0).
Proof.
  intros Hb Hland wh height b1'. subst wh height b1'. revert Hland.
  open_clamp Hb. intro Hland.
  destruct (Rlt_dec ww wh) as [Hn|_]; [lra|].
  split; intro Hh.
  - destruct (Rle_dec 0 (snd (Tb rz))) as [Hp|Hp].
    + cbn [opt_ge0 opt_truthy andb negb le lit Arith_R Tb snd].
      destruct (Rle_dec 0 0); cbn; lra.
    + destruct (Rle_dec (snd (pixelSize z) * snd (snd (TA rz)) - wh)
                        (Rabs (snd (Tb rz)))) as [Ha|Ha];
        cbn [opt_ge0 opt_truthy andb negb truthy Arith_R Tb snd];
        rcases; rabs; cbn [Tb snd]; lra.
  - destruct (Rle_dec 0 (snd (Tb rz))) as [Hp|Hp]; [|contradiction].
    cbn [opt_ge0 opt_truthy andb negb le lit Arith_R Tb snd].
    destruct (Rle_dec 0 0); cbn; lra.
Qed.

(** X19: the horizontal clamp of a landscape viewport, and the bound it
    skips, in exact arithmetic.  With [xRightFormula = -offsetLeft] and
    [xLeftFormula = (ww - pw)/2 - (width - pw)], both different from 0 and
    in that order, content wider than the viewport ends with a horizontal
    translation between the two.  When the element sits at [offsetLeft = 0]
    the right bound is 0, which the test [xRight && !xLeft] reads as not
    set: a translation above [xLeftFormula] is then left as proposed,
    however far to the right. *)
Theorem landscape_horizontal_clamp (h : Host R) (rz : Transform R)
    (z : Zoom R) :
  cfg_boundaries (config z) = true ->
  fst (windowSize h) <= snd (windowSize h) ->
  let ww := snd (windowSize h) in
  let pw := fst (pixelSize z) in
  let width := pw * fst (fst (TA rz)) in
  let xRightFormula := offsetLeft h * -1 in
  let xLeftFormula := (ww - pw) / 2 - (width - pw) in
  let b0' := fst (Tb (checkBoundaries h rz z)) in
  (ww < width -> xRightFormula <> 0 -> xLeftFormula <> 0 ->
   xLeftFormula <= xRightFormula ->
   xLeftFormula <= b0' <= xRightFormula)
  /\ (offsetLeft h = 0 -> xLeftFormula < fst (Tb rz) -> b0' = fst (Tb rz)).
Proof.
  intros Hb Hland ww pw width xR xL b0'.
  subst ww pw width xR xL b0'. revert Hland.
  open_clamp Hb. intro Hland.
  destruct (Rlt_dec ww wh) as [Hn|_]; [lra|].
  split.
  - intros Hw HR HL Hord. rcases; lra.
  - intros Ho Hx. rewrite Ho in *. rcases; lra.
Qed.
End ExactBoundaries.

(** ** The reset animation, in exact arithmetic *)

Module ExactAnimation.
Import Exact.
Local Open Scope R_scope.

(** X12: the target of a double tap, in exact arithmetic.  With [maxScale]
    configured and a frame scheduler, [reset()] animates from the active
    transform to the zoomed-in transform when both diagonal entries of the
    active matrix are exactly 1, and to the identity otherwise, so a second
    double tap at a [maxScale] other than 1 leads back.  The zoomed-in
    transform is the uniform scale [maxScale]; it puts the middle of the
    scaled element at the middle of the viewport horizontally and keeps the
    element's own middle vertically. *)
Theorem double_tap_target (h : Host R) (z : Zoom R) (M : R) :
  hasRAF h = true ->
  cfg_maxScale (config z) = Some M ->
  M <> 0 ->
  let Z := activeZoom z in
  let zoomed := zoomedIdentity h M z in
  (fst (fst (TA Z)) = 1 -> snd (snd (TA Z)) = 1 ->
   frames (reset h false z) = frames z ++ [mkAnim Z zoomed None])
  /\ (fst (fst (TA Z)) <> 1 \/ snd (snd (TA Z)) <> 1 ->
      frames (reset h false z) = frames z ++ [mkAnim Z identity None])
  /\ TA zoomed = ((M, 0), (0, M))
  /\ offsetLeft h + fst (Tb zoomed) + fst (pixelSize z) * M / 2
     = snd (windowSize h) / 2
  /\ snd (Tb zoomed) + snd (pixelSize z) * M / 2 = snd (pixelSize z) / 2.
Proof.
  intros Hraf Hmax HM Z zoomed. subst Z zoomed.
  assert (Hreset : frames (reset h false z)
                   = frames z ++
                     [mkAnim (activeZoom z)
                        (if (if Req_dec_T (fst (fst (TA (activeZoom z)))) 1
                             then true else false)
                            && (if Req_dec_T (snd (snd (TA (activeZoom z)))) 1
                                then true else false)
                         then zoomedIdentity h M z
                         else identity) None]).
  { unfold reset. rewrite Hraf.
    cbn [requestAnimationFrame set_frames set_isAnimationRunning frames
         config activeZoom].
    rewrite Hmax. cbn [truthy seq lit Arith_R negb andb].
    destruct (Req_dec_T M 0); [contradiction|].
    unfold zoomedIdentity at 1.
    cbn [set_isAnimationRunning pixelSize]. reflexivity. }
  split; [|split; [|split; [|split]]].
  - intros H0 H1. rewrite Hreset.
    destruct (Req_dec_T _ 1); [|contradiction].
    destruct (Req_dec_T _ 1); [|contradiction]. reflexivity.
  - intros Hne. rewrite Hreset.
    destruct (Req_dec_T (fst (fst (TA (activeZoom z)))) 1);
      destruct (Req_dec_T (snd (snd (TA (activeZoom z)))) 1);
      try reflexivity.
    destruct Hne; contradiction.
  - unfold zoomedIdentity.
    destruct (windowSize h), (pixelSize z). reflexivity.
  - unfold zoomedIdentity.
    destruct (windowSize h), (pixelSize z).
    cbn [fst snd Tb add sub mul div lit Arith_R]. field.
  - unfold zoomedIdentity.
    destruct (windowSize h), (pixelSize z).
    cbn [fst snd Tb add sub mul div lit Arith_R]. field.
Qed.

Lemma frame_first (Z T : Transform R) (t0 : R) (z : Zoom R) :
  step t0 (mkAnim Z T None) z
  = requestAnimationFrame (mkAnim Z T (Some t0))
      (setZoom (avg Z T ((t0 - t0) / 100)) z).
Proof.
  unfold step. cbn [anStart anZ anTarget le lit sub div Arith_R].
  destruct (Rle_dec 1 ((t0 - t0) / 100)); [lra|reflexivity].
Qed.

Lemma frame_middle (Z T : Transform R) (t0 t : R) (z : Zoom R) :
  t0 <> 0 -> t - t0 < 100 ->
  step t (mkAnim Z T (Some t0)) z
  = requestAnimationFrame (mkAnim Z T (Some t0))
      (setZoom (avg Z T ((t - t0) / 100)) z).
Proof.
  intros H0 Ht. unfold step.
  cbn [anStart anZ anTarget truthy le lit sub div Arith_R].
  destruct (Req_dec_T t0 0); [contradiction|].
  destruct (Rle_dec 1 ((t - t0) / 100)); [lra|reflexivity].
Qed.

Lemma frame_last (Z T : Transform R) (t0 t : R) (z : Zoom R) :
  t0 <> 0 -> 100 <= t - t0 ->
  step t (mkAnim Z T (Some t0)) z
  = snd (setTimeout EndAnimation 100 (setZoom T z)).
Proof.
  intros H0 Ht. unfold step.
  cbn [anStart anZ anTarget truthy le lit sub div Arith_R].
  destruct (Req_dec_T t0 0); [contradiction|].
  destruct (Rle_dec 1 ((t - t0) / 100)); [reflexivity|lra].
Qed.

Lemma frame_one (h : Host R) (a : Anim R) (t : R) (z : Zoom R) :
  frames z = [a] ->
  deliver h (FrameEv t) z = Some (step t a (set_frames [] z)).
Proof. intro Hf. cbn [deliver]. rewrite Hf. reflexivity. Qed.

Lemma frames_middle (h : Host R) (Z T : Transform R) (t0 : R)
    (ts : list R) (z : Zoom R) :
  t0 <> 0 ->
  Forall (fun t => t - t0 < 100) ts ->
  frames z = [mkAnim Z T (Some t0)] ->
  exists z',
    deliverAll h (map (@FrameEv R) ts) z = Some z'
    /\ frames z' = [mkAnim Z T (Some t0)]
    /\ timers z' = timers z
    /\ nextHandle z' = nextHandle z
    /\ activeZoom z' = activeZoom z
    /\ isAnimationRunning z' = isAnimationRunning z
    /\ repaints z'
       = rev (map (fun t => avg Z T ((t - t0) / 100)) ts) ++ repaints z.
Proof.
  intros H0 Hts. revert z.
  induction Hts as [|t ts Ht Hts IH]; intros z Hf.
  - exists z. repeat split; assumption.
  - cbn [map deliverAll].
    rewrite (frame_one h _ t z Hf), (frame_middle Z T t0 t _ H0 Ht).
    set (z1 := requestAnimationFrame _ _).
    destruct (IH z1 eq_refl) as (z' & Hrun & Hf' & Ht' & Hn' & Ha' & Hr' & Hp').
    exists z'. split; [exact Hrun|].
    repeat split; try assumption.
    rewrite Hp'. cbn [map rev]. rewrite <- app_assoc. reflexivity.
Qed.

(** X13: in exact arithmetic the reset animation runs to its target.  Once
    [reset] has scheduled its frame callback, a first frame at a time [t0]
    other than 0, any frames less than 100 ms after it and one frame 100 ms
    or more after it leave the target displayed exactly, with no frame
    callback pending and the 100 ms grace timer armed; each earlier frame
    has painted the blend at its fraction [(t - t0) / 100], and the expiry
    of the timer lowers [isAnimationRunning]. *)
Theorem animation_runs_to_target (h : Host R) (Z T : Transform R)
    (t0 t1 : R) (ts : list R) (z : Zoom R) :
  frames z = [mkAnim Z T None] ->
  t0 <> 0 ->
  Forall (fun t => t - t0 < 100) ts ->
  100 <= t1 - t0 ->
  exists z' z'',
    deliverAll h (map (@FrameEv R) (t0 :: ts ++ [t1])) z = Some z'
    /\ resultantZoom z' = T
    /\ frames z' = []
    /\ timers z' = (nextHandle z, (100%Z, EndAnimation)) :: timers z
    /\ repaints z'
       = T :: rev (map (fun t => avg Z T ((t - t0) / 100)) (t0 :: ts))
           ++ repaints z
    /\ deliver h (TimeoutEv (nextHandle z)) z' = Some z''
    /\ isAnimationRunning z'' = false
    /\ resultantZoom z'' = T.
Proof.
  intros Hf H0 Hts Hlast.
  cbn [map deliverAll].
  rewrite (frame_one h _ t0 z Hf), frame_first.
  set (z1 := requestAnimationFrame _ _).
  destruct (frames_middle h Z T t0 ts z1 H0 Hts eq_refl)
    as (z2 & Hrun & Hf2 & Ht2 & Hn2 & Ha2 & Hr2 & Hp2).
  assert (Hall : forall l z3,
             deliverAll h (map (@FrameEv R) ts) z1 = Some z3 ->
             deliverAll h (map (@FrameEv R) (ts ++ l)) z1
             = deliverAll h (map (@FrameEv R) l) z3).
  { clear. generalize z1. clear z1.
    induction ts as [|t ts IH]; intros z1 l z3.
    - intros [= ->]. reflexivity.
    - cbn [map app deliverAll].
      destruct (deliver h (FrameEv t) z1); [apply IH|discriminate]. }
  rewrite (Hall [t1] z2 Hrun). cbn [map deliverAll].
  rewrite (frame_one h _ t1 z2 Hf2), (frame_last Z T t0 t1 _ H0 Hlast).
  eexists. eexists.
  split; [reflexivity|].
  cbn [snd setTimeout set_timers setZoom repaint emit set_resultantZoom
       set_frames resultantZoom frames timers nextHandle].
  rewrite Ht2, Hn2.
  split; [reflexivity|]. split; [reflexivity|]. split; [reflexivity|].
  split.
  { unfold repaints in *.
    cbn [log set_timers setZoom repaint emit set_resultantZoom set_frames
         flat_map app].
    rewrite Hp2. cbn [map rev]. rewrite <- app_assoc. reflexivity. }
  split.
  { cbn [deliver timers set_timers find fst]. rewrite Nat.eqb_refl.
    reflexivity. }
  split; reflexivity.
Qed.

(** X14: a first frame stamped 0 does not start the clock.  The test
    [!startTime] reads the stored 0 as not yet set, so the next frame,
    however late, starts the animation again at fraction 0 instead of
    ending it. *)
Theorem frame_stamped_zero_restarts (h : Host R) (Z T : Transform R)
    (t : R) (z : Zoom R) :
  frames z = [mkAnim Z T None] ->
  exists z',
    deliverAll h [FrameEv 0; FrameEv t] z = Some z'
    /\ frames z' = [mkAnim Z T (Some t)]
    /\ resultantZoom z' = avg Z T ((t - t) / 100)
    /\ timers z' = timers z.
Proof.
  intro Hf. cbn [deliverAll].
  rewrite (frame_one h _ 0 z Hf), frame_first.
  set (z1 := requestAnimationFrame _ _).
  rewrite (frame_one h (mkAnim Z T (Some 0)) t z1 eq_refl).
  unfold step. cbn [anStart anZ anTarget truthy le lit sub div Arith_R].
  destruct (Req_dec_T 0 0) as [_|Hn]; [|contradiction Hn; reflexivity].
  destruct (Rle_dec 1 ((t - t) / 100)); [lra|].
  eexists. split; [reflexivity|]. repeat split.
Qed.
End ExactAnimation.

(** ** NaN in the controller, on binary64 *)

Module Binary64Controller.
Import B64 Binary64.

Lemma mul_nan_l (x : float) : nan [*] x = nan.
Proof. destruct x; reflexivity. Qed.

Lemma add_nan_l (x : float) : nan [+] x = nan.
Proof. destruct x; reflexivity. Qed.

Lemma leb_nan_l (x : float) : SFleb nan x = false.
Proof. destruct x; reflexivity. Qed.

Lemma ltb_nan_r (x : float) : SFltb x nan = false.
Proof. destruct x; reflexivity. Qed.

Lemma zoom_coincident_nan (s0 : Vector float) (d : Vector float * Vector float) :
  zoom (s0, s0) d true = nanT.
Proof.
  destruct s0 as [x y], d as [[dx dy] [ex ey]].
  destruct (coincident_source x y) as (Hx & Hy & Hlen).
  unfold nanT. unfold_resolver.
  rewrite (div_zero_or_nan _ _
    (add_zero_or_nan _ _ (mul_zero_or_nan _ (ex [-] dx) Hx)
                         (mul_zero_or_nan _ (ey [-] dy) Hy)) Hlen).
  rewrite (div_zero_or_nan _ _
    (sub_zero_or_nan _ _ (mul_zero_or_nan _ (ey [-] dy) Hx)
                         (mul_zero_or_nan _ (ex [-] dx) Hy)) Hlen).
  cbn [SFopp nan].
  rewrite !mul_nan_r, !add_nan_r, !sub_nan_r. reflexivity.
Qed.

Lemma cascade_nan_l (U : Transform float) : cascade nanT U = nanT.
Proof.
  destruct U as [[[a b] [c d]] [e f]].
  unfold nanT, cascade, mult, apply, vcadd, scmult.
  cbn [fst snd TA Tb add mul Arith_B64].
  rewrite !mul_nan_r, !add_nan_r. reflexivity.
Qed.

Lemma cascade_nan_r (T : Transform float) : cascade T nanT = nanT.
Proof.
  destruct T as [[[a b] [c d]] [e f]].
  unfold nanT, cascade, mult, apply, vcadd, scmult.
  cbn [fst snd TA Tb add mul Arith_B64].
  rewrite !mul_nan_l, !add_nan_l. reflexivity.
Qed.

Lemma nan_passes_checkPan (cfg : Config float) :
  belowMin cfg nanT = false /\ aboveMax cfg nanT = false.
Proof.
  unfold belowMin, aboveMax, nanT. cbn [TA fst snd le lt Arith_B64].
  split.
  - destruct (cfg_minScale cfg) as [m|]; [|reflexivity].
    rewrite leb_nan_l. cbn [andb]. apply andb_false_r.
  - destruct (cfg_maxScale cfg) as [m|]; [|reflexivity].
    rewrite ltb_nan_r. cbn [andb]. apply andb_false_r.
Qed.

Lemma preview_nan (h : Host float) (z : Zoom float) :
  proposedZoom z = nanT ->
  cfg_boundaries (config z) = false ->
  previewZoom h z = setZoom nanT z.
Proof.
  intros Hp Hb. rewrite previewZoom_cases, Hp.
  destruct (nan_passes_checkPan (config z)) as [-> ->].
  unfold checkBoundaries. rewrite Hb. reflexivity.
Qed.

(** X20: the scale limits do not stop a degenerate pinch.  When the two
    captured source points coincide and [rotate] is on, the proposed
    transform has no number in it, whatever the destination points and
    the active transform; neither test of [checkPan] rejects it, whatever
    [minScale] and [maxScale] are, and with boundary clamping off it is
    displayed. *)
Theorem degenerate_pinch_is_displayed (h : Host float) (z : Zoom float) :
  fst (srcCoords z) = snd (srcCoords z) ->
  cfg_rotate (config z) = true ->
  proposedZoom z = nanT
  /\ belowMin (config z) (proposedZoom z) = false
  /\ aboveMax (config z) (proposedZoom z) = false
  /\ (cfg_boundaries (config z) = false ->
      previewZoom h z = setZoom nanT z).
Proof.
  intros Hs Hrot.
  assert (Hp : proposedZoom z = nanT).
  { unfold proposedZoom. rewrite Hrot.
    destruct (srcCoords z) as [s0 s1]. cbn [fst snd] in Hs. subst s1.
    rewrite zoom_coincident_nan. apply cascade_nan_l. }
  rewrite Hp.
  destruct (nan_passes_checkPan (config z)) as [Hmin Hmax].
  repeat split; try assumption.
  intro Hb. apply preview_nan; assumption.
Qed.

(** X21: a NaN active transform makes the next proposal NaN.  If the
    active transform has no number in it, then whatever the captured
    points, the rotate flag and the scale limits, the proposal
    [previewZoom] computes has none either and, with boundary clamping
    off, [previewZoom] displays it. *)
Theorem nan_active_absorbs (h : Host float) (z : Zoom float) :
  activeZoom z = nanT ->
  proposedZoom z = nanT
  /\ (cfg_boundaries (config z) = false ->
      previewZoom h z = setZoom nanT z).
Proof.
  intro Ha.
  assert (Hp : proposedZoom z = nanT).
  { unfold proposedZoom. rewrite Ha. apply cascade_nan_r. }
  split; [exact Hp|]. intro Hb. apply preview_nan; assumption.
Qed.
End Binary64Controller.

(** ** Configuration defaults *)

Section DefaultsFacts.
Context {num : Type}.











End DefaultsFacts.

(** ** The clamp changes the translation only *)

Section ClampFacts.
Context {num : Type} `{Arith num}.

(** X15: [checkBoundaries] returns the matrix it was given, whatever the
    configuration, the viewport and the proposed translation: it can
    change neither the scale nor the rotation [checkPan] has accepted; and
    with [boundaries] off it returns the whole transform as proposed. *)
Theorem checkBoundaries_only_translation (h : Host num)
    (rz : Transform num) (z : Zoom num) :
  TA (checkBoundaries h rz z) = TA rz
  /\ (cfg_boundaries (config z) = false -> checkBoundaries h rz z = rz).
Proof.
  split; [apply checkBoundaries_keeps_A|].
  intro Hb. unfold checkBoundaries. rewrite Hb. reflexivity.
Qed.
End ClampFacts.

(** ** Instances *)

Module Instances.
Import Run64 Run64More RunExact RunExactMore.

Lemma one_animation_at_a_time_witness :
  let z := after Run64.capped double_tap in
  length (frames z) <= 1
  /\ (isAnimationRunning z = false ->
      frames z = [] /\ filter isEnd (timers z) = [])
  /\ (isAnimationRunning z = true ->
      (length (frames z) + length (filter isEnd (timers z)) = 1)%nat).
Proof.
  apply (one_animation_at_a_time Run64.page Run64.capped size double_tap).
  vm_compute. reflexivity.
Defined.

Lemma gesture_has_no_memory_witness :
  exists z12 z2,
    deliverAll Run64.page
      [TouchMoveEv (mkEvent (Some [at_ 0 0; at_ 15 0]));
       TouchMoveEv (mkEvent (Some [at_ 1 1; at_ 16 1]))]
      (after Run64.capped [two_down]) = Some z12
    /\ deliver Run64.page (TouchMoveEv (mkEvent (Some [at_ 1 1; at_ 16 1])))
         (after Run64.capped [two_down]) = Some z2
    /\ session z12 = session z2
    /\ resultantZoom z2
       = checkBoundaries Run64.page
           (cascade
              (zoom (srcCoords (after Run64.capped [two_down]))
                 ((n 1, n 1), (n 16, n 1))
                 (cfg_rotate (config (after Run64.capped [two_down]))))
              (activeZoom (after Run64.capped [two_down])))
           (after Run64.capped [two_down]).
Proof.
  refine (gesture_has_no_memory Run64.page (after Run64.capped [two_down])
            [at_ 0 0; at_ 15 0] [at_ 1 1; at_ 16 1]
            ((n 0, n 0), (n 15, n 0)) ((n 1, n 1), (n 16, n 1))
            _ _ _ _ _ _ _ _ _);
    try (vm_compute; reflexivity).
  vm_compute. discriminate.
Defined.

Lemma double_tap_detection_witness :
  exists z2 target,
    deliverAll Run64.page
      [TouchStartEv (mkEvent (Some [at_ 0 0]));
       TouchEndEv (mkEvent (Some []));
       TouchStartEv (mkEvent (Some [at_ 2 2]))]
      (newZoom Run64.capped size) = Some z2
    /\ isAnimationRunning z2 = true
    /\ mayBeDoubleTap z2 = None
    /\ find (fun t => Nat.eqb (fst t) (nextHandle (newZoom Run64.capped size)))
         (timers z2) = None
    /\ frames z2
       = frames (newZoom Run64.capped size)
         ++ [mkAnim (resultantZoom (newZoom Run64.capped size)) target None]
    /\ resultantZoom z2 = resultantZoom (newZoom Run64.capped size)
    /\ repaints z2 = repaints (newZoom Run64.capped size)
    /\ curTouch z2 = 0%nat.
Proof.
  refine (proj1 (proj2 (double_tap_detection Run64.page (newZoom Run64.capped size)
                          (at_ 0 0) (at_ 2 2) _ _ _ _)));
    reflexivity.
Defined.

Lemma degenerate_pinch_is_displayed_witness :
  proposedZoom from_one_point = nanT
  /\ belowMin (config from_one_point) (proposedZoom from_one_point) = false
  /\ aboveMax (config from_one_point) (proposedZoom from_one_point) = false
  /\ (cfg_boundaries (config from_one_point) = false ->
      previewZoom Run64.page from_one_point = setZoom nanT from_one_point).
Proof.
  apply (Binary64Controller.degenerate_pinch_is_displayed Run64.page
           from_one_point); vm_compute; reflexivity.
Defined.

Lemma nan_active_absorbs_witness :
  proposedZoom after_degenerate_pinch = nanT
  /\ (cfg_boundaries (config after_degenerate_pinch) = false ->
      previewZoom Run64.page after_degenerate_pinch
      = setZoom nanT after_degenerate_pinch).
Proof.
  apply (Binary64Controller.nan_active_absorbs Run64.page
           after_degenerate_pinch).
  vm_compute. reflexivity.
Defined.




Local Open Scope R_scope.

Lemma wide_is_landscape : fst (windowSize wide) <= snd (windowSize wide).
Proof.
  unfold windowSize, js_or, wide. cbn.
  repeat match goal with
         | |- context [Req_dec_T ?x ?y] => destruct (Req_dec_T x y)
         end; lra.
Qed.

Lemma landscape_vertical_clamp_witness :
  let rz : Transform R := mkTransform ((10, 0), (0, 10)) (0, -900) in
  let wh := fst (windowSize wide) in
  let height := snd (pixelSize resting) * snd (snd (TA rz)) in
  let b1' := snd (Tb (checkBoundaries wide rz resting)) in
  (wh < height -> wh - height <= b1' <= 0)
  /\ (0 <= snd (Tb rz) -> b1' = 0).
Proof.
  apply (ExactBoundaries.landscape_vertical_clamp wide
           (mkTransform ((10, 0), (0, 10)) (0, -900)) resting).
  - reflexivity.
  - exact wide_is_landscape.
Defined.

Lemma landscape_horizontal_clamp_witness :
  let rz : Transform R := mkTransform ((10, 0), (0, 10)) (300, 0) in
  let ww := snd (windowSize wide) in
  let pw := fst (pixelSize resting) in
  let width := pw * fst (fst (TA rz)) in
  let xRightFormula := offsetLeft wide * -1 in
  let xLeftFormula := (ww - pw) / 2 - (width - pw) in
  let b0' := fst (Tb (checkBoundaries wide rz resting)) in
  (ww < width -> xRightFormula <> 0 -> xLeftFormula <> 0 ->
   xLeftFormula <= xRightFormula ->
   xLeftFormula <= b0' <= xRightFormula)
  /\ (offsetLeft wide = 0 -> xLeftFormula < fst (Tb rz) -> b0' = fst (Tb rz)).
Proof.
  apply (ExactBoundaries.landscape_horizontal_clamp wide
           (mkTransform ((10, 0), (0, 10)) (300, 0)) resting).
  - reflexivity.
  - exact wide_is_landscape.
Defined.

Lemma double_tap_target_witness :
  let Z := activeZoom RunExactMore.capped in
  let zoomed := zoomedIdentity RunExact.page 2 RunExactMore.capped in
  (fst (fst (TA Z)) = 1 -> snd (snd (TA Z)) = 1 ->
   frames (reset RunExact.page false RunExactMore.capped)
   = frames RunExactMore.capped ++ [mkAnim Z zoomed None])
  /\ (fst (fst (TA Z)) <> 1 \/ snd (snd (TA Z)) <> 1 ->
      frames (reset RunExact.page false RunExactMore.capped)
      = frames RunExactMore.capped ++ [mkAnim Z identity None])
  /\ TA zoomed = ((2, 0), (0, 2))
  /\ offsetLeft RunExact.page + fst (Tb zoomed)
     + fst (pixelSize RunExactMore.capped) * 2 / 2
     = snd (windowSize RunExact.page) / 2
  /\ snd (Tb zoomed) + snd (pixelSize RunExactMore.capped) * 2 / 2
     = snd (pixelSize RunExactMore.capped) / 2.
Proof.
  apply (ExactAnimation.double_tap_target RunExact.page RunExactMore.capped 2).
  - reflexivity.
  - reflexivity.
  - lra.
Defined.

Lemma animation_runs_to_target_witness :
  exists z' z'',
    deliverAll RunExact.page
      (map (@FrameEv R) (16 :: [32; 48] ++ [120])) resetting = Some z'
    /\ resultantZoom z' = identity
    /\ frames z' = []
    /\ timers z' = (nextHandle resetting, (100%Z, EndAnimation))
                   :: timers resetting
    /\ repaints z'
       = identity
         :: rev (map (fun t => avg identity identity ((t - 16) / 100))
                   (16 :: [32; 48]))
         ++ repaints resetting
    /\ deliver RunExact.page (TimeoutEv (nextHandle resetting)) z' = Some z''
    /\ isAnimationRunning z'' = false
    /\ resultantZoom z'' = identity.
Proof.
  apply (ExactAnimation.animation_runs_to_target RunExact.page
           identity identity 16 120 [32; 48] resetting).
  - reflexivity.
  - lra.
  - repeat constructor; lra.
  - lra.
Defined.

Lemma frame_stamped_zero_restarts_witness :
  exists z',
    deliverAll RunExact.page [FrameEv 0; FrameEv 500] resetting = Some z'
    /\ frames z' = [mkAnim identity identity (Some 500)]
    /\ resultantZoom z' = avg identity identity ((500 - 500) / 100)
    /\ timers z' = timers resetting.
Proof.
  apply (ExactAnimation.frame_stamped_zero_restarts RunExact.page
           identity identity 500 resetting).
  reflexivity.
Defined.
End Instances.

(** ** The earlier touch state machine *)

Section BetaFacts.
Context {num : Type} `{Arith num}.

Ltac open_listener :=
  unfold BetaMachine.listener, BetaMachine.ts1, BetaMachine.ts2,
    BetaMachine.tm1, BetaMachine.tm2, BetaMachine.te1, BetaMachine.te2,
    BetaMachine.destThenPreview, BetaMachine.finish, BetaMachine.complain,
    BetaMachine.setSrcAndDest, BetaMachine.setDest, BetaMachine.getCoords.

Ltac split_tests :=
  repeat match goal with
         | |- context [Nat.eqb ?a ?b] =>
             let E := fresh "E" in destruct (Nat.eqb a b) eqn:E; cbv iota
         end.

Ltac read_tests :=
  repeat match goal with
         | E : Nat.eqb _ _ = true |- _ => apply Nat.eqb_eq in E
         end.

(** X24: the listeners of zoom-1.0.7-beta.js call the handlers without
    the touch list, so every branch that captures coordinates, and every
    [default] branch, throws on [touches.length].  A [touchstart] or
    [touchmove] with one or two contacts throws unless [curState] is 3, or
    it is a one-contact [touchstart] at [curState] 100 (which starts the
    reset).  Whatever the event, the listener leaves the captured points
    and the timers as they were, and the displayed transform changes only
    if that reset finds no frame scheduler. *)
Theorem beta_handlers_throw (h : Host num) (k : BetaMachine.Kind)
    (t : list (Touch num)) (z : BetaMachine.Zoom num) :
  let r := BetaMachine.listener h k (mkEvent (Some t)) z in
  (k <> BetaMachine.End_ ->
   length t = 1 \/ length t = 2 ->
   BetaMachine.curState z <> 3 ->
   ~ (k = BetaMachine.Start /\ length t = 1
      /\ BetaMachine.curState z = 100) ->
   snd r = BetaMachine.Threw)
  /\ BetaMachine.srcCoords (fst r) = BetaMachine.srcCoords z
  /\ BetaMachine.destCoords (fst r) = BetaMachine.destCoords z
  /\ BetaMachine.timers (fst r) = BetaMachine.timers z
  /\ (hasRAF h = true ->
      BetaMachine.resultantZoom (fst r) = BetaMachine.resultantZoom z
      /\ BetaMachine.notes (fst r) = BetaMachine.notes z).
Proof.
  cbv zeta. split; [|split; [|split; [|split]]].
  - intros Hk Hlen H3 H100. open_listener. cbn [touches].
    destruct Hlen as [Hl | Hl]; rewrite Hl in *; cbn [Nat.eqb];
      destruct k; try contradiction; split_tests; try reflexivity;
      read_tests; try contradiction; exfalso; apply H100; auto.
  - open_listener. cbn [touches].
    destruct k; split_tests; try reflexivity;
      unfold BetaMachine.reset, BetaMachine.to2;
      destruct (hasRAF h); split_tests; reflexivity.
  - open_listener. cbn [touches].
    destruct k; split_tests; try reflexivity;
      unfold BetaMachine.reset, BetaMachine.to2;
      destruct (hasRAF h); split_tests; reflexivity.
  - open_listener. cbn [touches].
    destruct k; split_tests; try reflexivity;
      unfold BetaMachine.reset, BetaMachine.to2;
      destruct (hasRAF h); split_tests; reflexivity.
  - intro Hraf. open_listener. cbn [touches].
    destruct k; split_tests; try (split; reflexivity);
      unfold BetaMachine.reset; rewrite Hraf; split; reflexivity.
Qed.
End BetaFacts.

Module ExactBeta.
Import Exact BetaInvariant.
Local Open Scope R_scope.

Lemma avg_identity (p : R) : avg identity identity p = identity.
Proof. unfold_algebra. componentwise; ring. Qed.

Ltac open_still :=
  unfold still, BetaMachine.finalize, BetaMachine.setZoom,
    BetaMachine.repaint, BetaMachine.note, BetaMachine.set_curState,
    BetaMachine.set_activeZoom, BetaMachine.set_resultantZoom,
    BetaMachine.set_frames in *;
  cbn [BetaMachine.activeZoom BetaMachine.resultantZoom BetaMachine.frames
       BetaMachine.notes BetaMachine.srcCoords BetaMachine.destCoords
       BetaMachine.timers BetaMachine.curState] in *.

Ltac close_still :=
  repeat match goal with
         | |- _ /\ _ => split
         end;
  try assumption; try reflexivity;
  try (cbn [In]; tauto);
  try (constructor; [tauto | assumption]);
  try (apply Forall_app; split; [assumption | constructor; [cbn; auto | constructor]]).

Lemma still_to2 (z : BetaMachine.Zoom R) :
  still z -> still (BetaMachine.to2 z).
Proof.
  intro Hs. unfold BetaMachine.to2.
  destruct (Nat.eqb (BetaMachine.curState z) 3);
    open_still; destruct Hs as (Ha & Hr & Hf & Hn & Hsrc & Hdst & Ht & Hc);
    close_still.
Qed.

Lemma still_state (z : BetaMachine.Zoom R) (v : nat) :
  In v [0; 1; 2; 3; 10; 100]%nat ->
  still z -> still (BetaMachine.set_curState v z).
Proof.
  intros Hv Hs. open_still.
  destruct Hs as (Ha & Hr & Hf & Hn & Hsrc & Hdst & Ht & Hc). close_still.
Qed.

Lemma still_finalize (z : BetaMachine.Zoom R) :
  still z -> still (BetaMachine.finalize z).
Proof.
  intros Hs. open_still.
  destruct Hs as (Ha & Hr & Hf & Hn & Hsrc & Hdst & Ht & Hc). close_still.
Qed.

Lemma still_reset (h : Host R) (z : BetaMachine.Zoom R) :
  still z -> still (BetaMachine.reset h z).
Proof.
  intro Hs. unfold BetaMachine.reset. destruct (hasRAF h).
  - open_still.
    destruct Hs as (Ha & Hr & Hf & Hn & Hsrc & Hdst & Ht & Hc). close_still.
  - apply still_to2, Hs.
Qed.

Lemma still_step (time : R) (a : BetaMachine.Anim R)
    (z : BetaMachine.Zoom R) :
  BetaMachine.anZ a = identity ->
  still z -> still (BetaMachine.step time a z).
Proof.
  intros Ha Hs. unfold BetaMachine.step. cbv zeta.
  match goal with
  | |- still (if ?c then _ else _) => destruct c
  end.
  - apply still_to2, Hs.
  - rewrite Ha, avg_identity. open_still.
    destruct Hs as (Ha' & Hr & Hf & Hn & Hsrc & Hdst & Ht & Hc). close_still.
Qed.

Lemma still_frames (time : R) (l : list (BetaMachine.Anim R))
    (z : BetaMachine.Zoom R) :
  Forall (fun a => BetaMachine.anZ a = identity) l ->
  still z ->
  still (fold_left (fun z a => BetaMachine.step time a z) l z).
Proof.
  revert z. induction l as [|a l IH]; intros z Hl Hs; [exact Hs|].
  inversion Hl; subst. cbn [fold_left]. apply IH; [assumption|].
  apply still_step; assumption.
Qed.

Lemma still_complain (z : BetaMachine.Zoom R) :
  still z -> still (fst (BetaMachine.complain None z)).
Proof. intro Hs; exact Hs. Qed.

Lemma still_listener (h : Host R) (k : BetaMachine.Kind)
    (evt : TouchEvent R) (z : BetaMachine.Zoom R) :
  still z -> still (fst (BetaMachine.listener h k evt z)).
Proof.
  intro Hs.
  unfold BetaMachine.listener, BetaMachine.ts1, BetaMachine.ts2,
    BetaMachine.tm1, BetaMachine.tm2, BetaMachine.te1, BetaMachine.te2,
    BetaMachine.destThenPreview, BetaMachine.finish, BetaMachine.complain,
    BetaMachine.setSrcAndDest, BetaMachine.setDest, BetaMachine.getCoords.
  destruct (touches evt) as [t|]; [|exact Hs]. cbv zeta.
  destruct (Nat.eqb (length t) 1); [|destruct (Nat.eqb (length t) 2)];
    [| |exact Hs];
    destruct k;
    repeat match goal with
           | |- context [Nat.eqb (BetaMachine.curState z) ?b] =>
               destruct (Nat.eqb (BetaMachine.curState z) b); cbv iota
           end;
    cbn [fst];
    repeat first [ exact Hs
                 | apply still_reset
                 | apply still_finalize
                 | apply still_state; [cbn [In]; tauto|] ].
Qed.

Lemma still_deliver (h : Host R) (ev : BetaMachine.Event R)
    (z : BetaMachine.Zoom R) :
  still z -> still (BetaMachine.deliver h ev z).
Proof.
  intro Hs. destruct ev as [k evt | time | ]; cbn [BetaMachine.deliver].
  - apply still_listener, Hs.
  - apply still_frames; [apply Hs|].
    open_still.
    destruct Hs as (Ha & Hr & Hf & Hn & Hsrc & Hdst & Ht & Hc).
    close_still. constructor.
  - destruct Hs as (Ha & Hr & Hf & Hn & Hsrc & Hdst & Ht & Hc).
    rewrite Ht.
    repeat split; assumption.
Qed.

(** X25: in exact arithmetic zoom-1.0.7-beta.js never moves its element.
    From the constructed object, whatever touch events, animation frames and
    timer expiries arrive, the active and the displayed transform are the
    identity, every transform ever painted is the identity, no touch
    coordinates have been captured, no [to1] timer is pending, and
    [curState] is one of 0, 1, 2, 3, 10, 100. *)
Theorem beta_never_moves_the_element (h : Host R)
    (evs : list (BetaMachine.Event R)) :
  let z := BetaMachine.deliverAll h evs BetaMachine.newZoom in
  BetaMachine.activeZoom z = identity
  /\ BetaMachine.resultantZoom z = identity
  /\ (forall T, In (BetaMachine.Painted T) (BetaMachine.notes z) ->
                T = identity)
  /\ BetaMachine.srcCoords z = BetaMachine.srcCoords BetaMachine.newZoom
  /\ BetaMachine.destCoords z = BetaMachine.destCoords BetaMachine.newZoom
  /\ BetaMachine.timers z = 0%nat
  /\ In (BetaMachine.curState z) [0; 1; 2; 3; 10; 100]%nat.
Proof.
  cbv zeta.
  assert (Hs : still (BetaMachine.deliverAll h evs BetaMachine.newZoom)).
  { unfold BetaMachine.deliverAll.
    assert (H0 : still BetaMachine.newZoom).
    { unfold still, BetaMachine.newZoom.
      cbn [BetaMachine.activeZoom BetaMachine.resultantZoom
           BetaMachine.frames BetaMachine.notes BetaMachine.srcCoords
           BetaMachine.destCoords BetaMachine.timers BetaMachine.curState
           lit Arith_R].
      repeat split; try constructor; try reflexivity. }
    revert H0. generalize (@BetaMachine.newZoom R _).
    induction evs as [|ev evs IH]; intros z Hz; [exact Hz|].
    cbn [fold_left]. apply IH, still_deliver, Hz. }
  destruct Hs as (Ha & Hr & Hf & Hn & Hsrc & Hdst & Ht & Hc).
  repeat match goal with |- _ /\ _ => split end; try assumption.
  intros T HT. rewrite Forall_forall in Hn.
  destruct (Hn _ HT) as [E | E]; [injection E as E; exact E | discriminate].
Qed.
End ExactBeta.

Module BetaInstances.
Lemma beta_handlers_throw_witness :
  snd (BetaMachine.listener Run64.page BetaMachine.Start
         (Run64.touching [Run64.at_ 0 0]) BetaMachine.newZoom)
  = BetaMachine.Threw
  /\ BetaMachine.notes
       (fst (BetaMachine.listener Run64.page BetaMachine.Start
               (Run64.touching [Run64.at_ 0 0]) BetaMachine.newZoom)) = [].
Proof.
  pose proof (beta_handlers_throw Run64.page BetaMachine.Start
                [Run64.at_ 0 0] BetaMachine.newZoom) as (Hthrow & _ & _ & _ & Hraf).
  split.
  - apply Hthrow.
    + discriminate.
    + left; reflexivity.
    + cbn; discriminate.
    + intros (_ & _ & E); cbn in E; discriminate E.
  - apply (proj2 (Hraf eq_refl)).
Defined.
End BetaInstances.
